(** * AuthContext.tsx: the session provider and its profile sync

    A shallow embedding of [src/contexts/AuthContext.tsx].  The React
    state of [AuthProvider], the profile table behind
    [supabase.from('profiles')] and the log of requests sent to the
    Supabase client are explicit state; every [async] function of the
    source is a program of the [Async] monad below, in which each [await]
    is a suspension point answered by the backend. *)

From Stdlib Require Import ZArith.
From stdpp Require Import base option list strings gmap.

Open Scope string_scope.
Open Scope list_scope.

(** ** JavaScript values

    [user_metadata] is typed [Record<string, any>] and the rows returned
    by the query builder are JSON objects, so both are finite maps from
    property names to JSON values.  Numbers are the integers; the only
    fact the code uses about a number is its truthiness. *)

#[local] Set Warnings "-register-all".

Inductive JsVal : Type :=
| JUndefined
| JNull
| JBool (b : bool)
| JNum (n : Z)
| JStr (s : string)
| JArr (items : list JsVal)
| JObj (fields : gmap string JsVal).

(** [if (v)], [!v] and [&&] test JavaScript truthiness. *)
Definition truthy (v : JsVal) : bool :=
  match v with
  | JUndefined | JNull => false
  | JBool b => b
  | JNum n => negb (n =? 0)%Z
  | JStr s => negb (String.eqb s "")
  | JArr _ | JObj _ => true
  end.

(** Reading a property that an object lacks yields [undefined]. *)
Definition get_prop (o : gmap string JsVal) (k : string) : JsVal :=
  default JUndefined (o !! k).

(** [o?.k]: [undefined] when [o] itself is nullish. *)
Definition opt_prop (o : option (gmap string JsVal)) (k : string) : JsVal :=
  from_option (fun m => get_prop m k) JUndefined o.

(** ** Data of the identity backend *)

Record Error := mkError { message : string }.

Record User := mkUser {
  id : string;
  email : option string;
  user_metadata : option (gmap string JsVal)
}.

Record Session := mkSession {
  access_token : string;
  session_user : User
}.

(** A profile row, as a JSON object keyed by column name. *)
Abbreviation Row := (gmap string JsVal).

(** The [{ data, error }] shape of every client response. *)
Record Response (D : Type) := mkResponse {
  data : D;
  error : option Error
}.
Arguments mkResponse {D} _ _.
Arguments data {D} _.
Arguments error {D} _.

(** A promise settles either way; [await] throws on a rejection. *)
Inductive Settled (A : Type) : Type :=
| Fulfilled (a : A)
| Rejected (e : Error).
Arguments Fulfilled {A} _.
Arguments Rejected {A} _.

(** ** Requests to the Supabase client *)

Record SignUpOptions := mkSignUpOptions {
  emailRedirectTo : string;
  options_data : gmap string JsVal
}.

Record SignUpCredentials := mkSignUpCredentials {
  cred_email : string;
  cred_password : string;
  cred_options : SignUpOptions
}.

(** The promise-returning calls that the source awaits. *)
Inductive Call : Type :=
| auth_signUp (credentials : SignUpCredentials)
| auth_signInWithPassword (email password : string)
| auth_signInWithOAuth (provider redirectTo : string)
| auth_resetPasswordForEmail (email redirectTo : string)
| auth_signOut
  (* from('profiles').select(columns).eq(column, value).single() *)
| profiles_select_single (columns : string) (column value : string)
  (* from('profiles').update(payload).eq(column, value) *)
| profiles_update (payload : gmap string JsVal) (column value : string).

Definition Result (c : Call) : Type :=
  match c with
  | profiles_select_single _ _ _ => Response (option Row)
  | _ => Response unit
  end.

(** Everything the client is asked to do, in the order it is asked. *)
Inductive Request : Type :=
| Issued (c : Call)
| auth_onAuthStateChange (subscription : nat)
| auth_getSession
| subscription_unsubscribe (subscription : nat).

(** ** Asynchronous programs

    The free monad over the effects of the component: the three state
    setters of [useState], [console.log], [throw], and [await] of a
    client call.  [Await c k] parks the function until the backend
    settles the promise of [c]. *)

Inductive Async (A : Type) : Type :=
| Ret (a : A)
| Throw (e : Error)
| SetSession (s : option Session) (k : Async A)
| SetUser (u : option User) (k : Async A)
| SetLoading (b : bool) (k : Async A)
| ConsoleLog (args : list JsVal) (k : Async A)
| Await (c : Call) (k : Settled (Result c) -> Async A).
Arguments Ret {A} _.
Arguments Throw {A} _.
Arguments SetSession {A} _ _.
Arguments SetUser {A} _ _.
Arguments SetLoading {A} _ _.
Arguments ConsoleLog {A} _ _.
Arguments Await {A} _ _.

Fixpoint bind {A B : Type} (p : Async A) (f : A -> Async B) : Async B :=
  match p with
  | Ret a => f a
  | Throw e => Throw e
  | SetSession s k => SetSession s (bind k f)
  | SetUser u k => SetUser u (bind k f)
  | SetLoading b k => SetLoading b (bind k f)
  | ConsoleLog args k => ConsoleLog args (bind k f)
  | Await c k => Await c (fun r => bind (k r) f)
  end.

Definition await (c : Call) : Async (Result c) :=
  Await c (fun r => match r with
                    | Fulfilled v => Ret v
                    | Rejected e => Throw e
                    end).

Definition setSession (s : option Session) : Async unit := SetSession s (Ret tt).
Definition setUser (u : option User) : Async unit := SetUser u (Ret tt).
Definition setLoading (b : bool) : Async unit := SetLoading b (Ret tt).
Definition console_log (args : list JsVal) : Async unit := ConsoleLog args (Ret tt).

(** [Async] is a monad; programs are written with stdpp's [x ← p; q]. *)
#[global] Instance Async_ret : MRet Async := fun A a => Ret a.
#[global] Instance Async_bind : MBind Async := fun A B f p => bind p f.

(** [if (b) { p }] without an [else]. *)
Definition when (b : bool) (p : Async unit) : Async unit :=
  if b then p else Ret tt.

(** ** The world the component runs in *)

Record Window := mkWindow { location_origin : string }.

Record World := mkWorld {
  (* const [user, setUser] = useState<User | null>(null), and so on *)
  user : option User;
  session : option Session;
  loading : bool;
  (* the rows of the profiles table *)
  profiles : list Row;
  (* the requests the client has received, oldest first *)
  requests : list Request;
  (* the lines written by console.log, oldest first *)
  console : list (list JsVal)
}.

Definition set_user (u : option User) (w : World) : World :=
  mkWorld u (session w) (loading w) (profiles w) (requests w) (console w).
Definition set_session (s : option Session) (w : World) : World :=
  mkWorld (user w) s (loading w) (profiles w) (requests w) (console w).
Definition set_loading (b : bool) (w : World) : World :=
  mkWorld (user w) (session w) b (profiles w) (requests w) (console w).
Definition set_profiles (rows : list Row) (w : World) : World :=
  mkWorld (user w) (session w) (loading w) rows (requests w) (console w).
Definition log_request (r : Request) (w : World) : World :=
  mkWorld (user w) (session w) (loading w) (profiles w) (requests w ++ [r]) (console w).
Definition log_console (args : list JsVal) (w : World) : World :=
  mkWorld (user w) (session w) (loading w) (profiles w) (requests w) (console w ++ [args]).

(** ** The backend's answers

    How the backend treats one awaited call is chosen by the
    environment: it carries the call out and reports no error, it
    refuses and reports an error in the response, or the promise
    rejects. *)

Inductive Mode : Type :=
| Succeed
| Fail (e : Error)
| Reject (e : Error).

(** [.eq(column, value)] keeps the rows whose column holds that text. *)
Definition eq_filter (column value : string) (row : Row) : bool :=
  match row !! column with
  | Some (JStr s) => String.eqb s value
  | _ => false
  end.

(** [.select(column)] projects a row on the requested column. *)
Definition select_column (column : string) (row : Row) : Row :=
  match row !! column with
  | Some v => {[ column := v ]}
  | None => ∅
  end.

(** [.single()] answers with the row when there is exactly one, and with
    an error and [data: null] otherwise. *)
Definition single (rows : list Row) : Response (option Row) :=
  match rows with
  | [row] => mkResponse (Some row) None
  | _ => mkResponse None
           (Some (mkError "JSON object requested, multiple (or no) rows returned"))
  end.

(** [.update(payload).eq(column, value)] overwrites the payload's columns
    in every row that passes the filter. *)
Definition update_rows (payload : Row) (column value : string)
    (rows : list Row) : list Row :=
  (fun row => if eq_filter column value row then payload ∪ row else row) <$> rows.

Definition refused (c : Call) (e : Error) : Result c :=
  match c return Result c with
  | profiles_select_single _ _ _ => mkResponse None (Some e)
  | _ => mkResponse tt (Some e)
  end.

Definition carried_out (c : Call) (rows : list Row) : list Row * Result c :=
  match c return list Row * Result c with
  | profiles_select_single columns column value =>
      (rows, single (select_column columns <$> filter (fun row => eq_filter column value row) rows))
  | profiles_update payload column value =>
      (update_rows payload column value rows, mkResponse tt None)
  | auth_signUp _ => (rows, mkResponse tt None)
  | auth_signInWithPassword _ _ => (rows, mkResponse tt None)
  | auth_signInWithOAuth _ _ => (rows, mkResponse tt None)
  | auth_resetPasswordForEmail _ _ => (rows, mkResponse tt None)
  | auth_signOut => (rows, mkResponse tt None)
  end.

Definition perform (c : Call) (m : Mode) (rows : list Row)
    : list Row * Settled (Result c) :=
  match m with
  | Succeed => let '(rows', r) := carried_out c rows in (rows', Fulfilled r)
  | Fail e => (rows, Fulfilled (refused c e))
  | Reject e => (rows, Rejected e)
  end.

(** How a JavaScript function call ends. *)
Inductive Completion (A : Type) : Type :=
| Returned (a : A)
| Thrown (e : Error).
Arguments Returned {A} _.
Arguments Thrown {A} _.

(** [run script w p] runs [p] to its end with nothing else interleaved.
    The i-th [await] is answered in the i-th mode of [script]; when the
    script is exhausted the backend succeeds. *)
Fixpoint run {A : Type} (script : list Mode) (w : World) (p : Async A)
    : World * Completion A :=
  match p with
  | Ret a => (w, Returned a)
  | Throw e => (w, Thrown e)
  | SetSession s k => run script (set_session s w) k
  | SetUser u k => run script (set_user u w) k
  | SetLoading b k => run script (set_loading b w) k
  | ConsoleLog args k => run script (log_console args w) k
  | Await c k =>
      let m := default Succeed (head script) in
      let '(rows, r) := perform c m (profiles w) in
      run (tail script) (set_profiles rows (log_request (Issued c) w)) (k r)
  end.

(** ** The handlers registered by [useEffect] (lines 31 to 91) *)

(** The callback passed to [supabase.auth.onAuthStateChange]; its first
    argument, the event name, is not used.  A [Session] always embeds a
    [User], so [session?.user] is truthy exactly when the session is
    present, and [session?.user ?? null] is the user of the session or
    null. *)
Definition onAuthStateChange_callback (session : option Session) : Async unit :=
  setSession session;;
  setUser (session_user <$> session);;
  (* Sync Discord ID on auth state change *)
  match session with
  | Some s =>
      let discordId := opt_prop (user_metadata (session_user s)) "provider_id" in
      when (truthy discordId) (
        r ← await (profiles_select_single "discord_id" "user_id" (id (session_user s)));
        match data r with
        | Some profile =>
            when (negb (truthy (get_prop profile "discord_id"))) (
              _ ← await (profiles_update {[ "discord_id" := discordId ]}
                           "user_id" (id (session_user s)));
              mret tt)
        | None => mret tt
        end)
  | None => mret tt
  end.

(** The callback passed to [supabase.auth.getSession().then]; its
    argument is the fulfilled response, destructured to [data.session]. *)
Definition getSession_then (response : Response (option Session)) : Async unit :=
  let session := data response in
  setSession session;;
  setUser (session_user <$> session);;
  setLoading false;;
  (* If logged in with Discord, ensure discord_id is saved *)
  match session with
  | Some s =>
      let discordId := opt_prop (user_metadata (session_user s)) "provider_id" in
      when (truthy discordId) (
        (* Check if discord_id needs updating *)
        r ← await (profiles_select_single "discord_id" "user_id" (id (session_user s)));
        (* Update if missing *)
        match data r with
        | Some profile =>
            when (negb (truthy (get_prop profile "discord_id"))) (
              _ ← await (profiles_update {[ "discord_id" := discordId ]}
                           "user_id" (id (session_user s)));
              console_log [JStr "✅ Discord ID linked:"; discordId])
        | None => mret tt
        end)
  | None => mret tt
  end.

(** ** The exposed actions (lines 93 to 142) *)

(** The [{ error }] object the actions return. *)
Record ErrorResult := mkErrorResult { result_error : option Error }.

Definition signUp (window : Window) (email password hunterName : string)
    : Async ErrorResult :=
  let redirectUrl := location_origin window +:+ "/" in
  r ← await (auth_signUp
               {| cred_email := email;
                  cred_password := password;
                  cred_options :=
                    {| emailRedirectTo := redirectUrl;
                       options_data := {[ "hunter_name" := JStr hunterName ]} |} |});
  mret {| result_error := error r |}.

Definition signIn (email password : string) : Async ErrorResult :=
  r ← await (auth_signInWithPassword email password);
  mret {| result_error := error r |}.

Definition signInWithDiscord (window : Window) : Async ErrorResult :=
  r ← await (auth_signInWithOAuth "discord" (location_origin window +:+ "/"));
  mret {| result_error := error r |}.

Definition resetPassword (window : Window) (email : string) : Async ErrorResult :=
  r ← await (auth_resetPasswordForEmail email (location_origin window +:+ "/auth"));
  mret {| result_error := error r |}.

Definition signOut : Async unit :=
  _ ← await auth_signOut;
  setUser None;;
  setSession None.

(** ** The context and [useAuth] (lines 5 to 24 and 144 to 157) *)

Module AuthContextType.
Record t := mk {
  user : option User;
  session : option Session;
  loading : bool;
  signUp : string -> string -> string -> Async ErrorResult;
  signIn : string -> string -> Async ErrorResult;
  signInWithDiscord : Async ErrorResult;
  resetPassword : string -> Async ErrorResult;
  signOut : Async unit
}.
End AuthContextType.

(** The value [AuthProvider] hands to [AuthContext.Provider] on a render. *)
Definition AuthProvider_value (window : Window) (w : World) : AuthContextType.t :=
  {| AuthContextType.user := user w;
     AuthContextType.session := session w;
     AuthContextType.loading := loading w;
     AuthContextType.signUp := signUp window;
     AuthContextType.signIn := signIn;
     AuthContextType.signInWithDiscord := signInWithDiscord window;
     AuthContextType.resetPassword := resetPassword window;
     AuthContextType.signOut := signOut |}.

(** [useContext(AuthContext)]: the value of the nearest enclosing
    provider, nearest first, and the default [undefined] of
    [createContext] when there is none. *)
Definition useContext (enclosing : list AuthContextType.t) : option AuthContextType.t :=
  head enclosing.

(** [useAuth] is a plain function, not an [async] one: it returns or
    throws before its caller goes on. *)
Definition useAuth (enclosing : list AuthContextType.t) : Completion AuthContextType.t :=
  let context := useContext enclosing in
  match context with
  | None => Thrown (mkError "useAuth must be used within an AuthProvider")
  | Some context => Returned context
  end.

(** ** The event loop

    Handlers do not run to their end in one piece: an [async] function
    runs up to its next [await], is parked there, and goes on when the
    backend settles the awaited promise, with anything else in between. *)

(** An [async] function parked at an [await]. *)
Record Parked := mkParked {
  parked_call : Call;
  parked_k : Settled (Result parked_call) -> Async unit
}.

Record System := mkSystem {
  world : World;
  (* the subscriptions the client still notifies *)
  listeners : list nat;
  next_subscription : nat;
  (* the cleanup function React holds while the effect is mounted: the
     closure [() => subscription.unsubscribe()] and the subscription in it *)
  cleanup : option nat;
  (* getSession promises not yet settled *)
  fetching : nat;
  parked : list Parked
}.

(** A fresh [AuthProvider]: the initial values of the three [useState]. *)
Definition initial_world (rows : list Row) : World :=
  mkWorld None None true rows [] [].

Definition initial (rows : list Row) : System :=
  mkSystem (initial_world rows) [] 0 None 0 [].

Definition with_world (w : World) (sys : System) : System :=
  mkSystem w (listeners sys) (next_subscription sys) (cleanup sys)
           (fetching sys) (parked sys).
Definition with_parked (ps : list Parked) (sys : System) : System :=
  mkSystem (world sys) (listeners sys) (next_subscription sys) (cleanup sys)
           (fetching sys) ps.
Definition with_fetching (n : nat) (sys : System) : System :=
  mkSystem (world sys) (listeners sys) (next_subscription sys) (cleanup sys)
           n (parked sys).

(** Run the synchronous prefix of [p]: up to its end or its first
    [await], where the request is issued and the function parked.  A
    [throw] ends the function; its promise rejects and nobody looks. *)
Fixpoint advance (w : World) (p : Async unit) : World * option Parked :=
  match p with
  | Ret _ => (w, None)
  | Throw _ => (w, None)
  | SetSession s k => advance (set_session s w) k
  | SetUser u k => advance (set_user u w) k
  | SetLoading b k => advance (set_loading b w) k
  | ConsoleLog args k => advance (log_console args w) k
  | Await c k => (log_request (Issued c) w, Some (mkParked c k))
  end.

Definition start (p : Async unit) (sys : System) : System :=
  let '(w, pk) := advance (world sys) p in
  with_parked (parked sys ++ option_list pk) (with_world w sys).

(** The body of the effect (lines 32 to 90); it returns the subscription
    its cleanup function closes over. *)
Definition useEffect_body (sys : System) : System * nat :=
  (* Set up auth state listener FIRST *)
  let subscription := next_subscription sys in
  let sys :=
    mkSystem (log_request (auth_onAuthStateChange subscription) (world sys))
             (listeners sys ++ [subscription]) (S subscription) (cleanup sys)
             (fetching sys) (parked sys) in
  (* THEN check for existing session *)
  let sys :=
    with_fetching (S (fetching sys))
                  (with_world (log_request auth_getSession (world sys)) sys) in
  (sys, subscription).

(** [subscription.unsubscribe()] *)
Definition unsubscribe (subscription : nat) (sys : System) : System :=
  mkSystem (log_request (subscription_unsubscribe subscription) (world sys))
           (filter (fun l => l ≠ subscription) (listeners sys))
           (next_subscription sys) (cleanup sys) (fetching sys) (parked sys).

Definition mount (sys : System) : System :=
  match cleanup sys with
  | Some _ => sys
  | None =>
      let '(sys, subscription) := useEffect_body sys in
      mkSystem (world sys) (listeners sys) (next_subscription sys)
               (Some subscription) (fetching sys) (parked sys)
  end.

Definition unmount (sys : System) : System :=
  match cleanup sys with
  | Some subscription =>
      let sys := unsubscribe subscription sys in
      mkSystem (world sys) (listeners sys) (next_subscription sys)
               None (fetching sys) (parked sys)
  | None => sys
  end.

Inductive Action : Type :=
| call_signUp (email password hunterName : string)
| call_signIn (email password : string)
| call_signInWithDiscord
| call_resetPassword (email : string)
| call_signOut.

(** A caller that drops the returned value. *)
Definition discard {A : Type} (p : Async A) : Async unit := _ ← p; mret tt.

Definition action (window : Window) (a : Action) : Async unit :=
  match a with
  | call_signUp email password hunterName =>
      discard (signUp window email password hunterName)
  | call_signIn email password => discard (signIn email password)
  | call_signInWithDiscord => discard (signInWithDiscord window)
  | call_resetPassword email => discard (resetPassword window email)
  | call_signOut => signOut
  end.

Inductive Event : Type :=
  (* React runs the effect, and later its cleanup *)
| Mount
| Unmount
  (* the client notifies its subscribers of a session *)
| AuthStateChange (s : option Session)
  (* a getSession promise settles *)
| SessionFetched (r : Settled (Response (option Session)))
  (* a descendant calls one of the exposed actions *)
| Invoke (a : Action)
  (* the backend settles the promise the i-th parked function awaits *)
| Settle (i : nat) (m : Mode).

Definition step (window : Window) (sys : System) (ev : Event) : System :=
  match ev with
  | Mount => mount sys
  | Unmount => unmount sys
  | AuthStateChange s =>
      foldr (fun _ acc => start (onAuthStateChange_callback s) acc) sys (listeners sys)
  | SessionFetched r =>
      match fetching sys with
      | O => sys
      | S n =>
          let sys := with_fetching n sys in
          match r with
          | Fulfilled response => start (getSession_then response) sys
          | Rejected _ => sys
          end
      end
  | Invoke a => start (action window a) sys
  | Settle i m =>
      match parked sys !! i with
      | None => sys
      | Some pk =>
          let '(rows, r) := perform (parked_call pk) m (profiles (world sys)) in
          start (parked_k pk r)
                (with_parked (delete i (parked sys))
                             (with_world (set_profiles rows (world sys)) sys))
      end
  end.

Definition steps (window : Window) (sys : System) (evs : list Event) : System :=
  foldl (step window) sys evs.

(** * Vocabulary of the statements *)

(** ** Answers of the backend *)

(** The first [await] of [script] is answered by a rejected promise. *)
Definition rejects (script : list Mode) : bool :=
  match head script with
  | Some (Reject _) => true
  | _ => false
  end.

(** ** Sample data *)

Definition alice : User :=
  mkUser "u-1" (Some "alice@example.com") (Some {[ "provider_id" := JStr "Y" ]}).

Definition alice_session : Session := mkSession "token" alice.

Definition signed_in : World :=
  mkWorld (Some alice) (Some alice_session) false [] [] [].

(** ** Profile sync *)

(** [session.user.user_metadata?.provider_id] *)
Definition provider_id_of (s : Session) : JsVal :=
  opt_prop (user_metadata (session_user s)) "provider_id".

(** The rows that [.eq('user_id', uid)] selects. *)
Definition rows_of (uid : string) (rows : list Row) : list Row :=
  filter (fun row => eq_filter "user_id" uid row) rows.

Definition select_request (uid : string) : Request :=
  Issued (profiles_select_single "discord_id" "user_id" uid).

Definition update_request (discordId : JsVal) (uid : string) : Request :=
  Issued (profiles_update {[ "discord_id" := discordId ]} "user_id" uid).

(** The world after one notification, and after the session fetch,
    handled with nothing else in between. *)
Definition after_notification (script : list Mode) (w : World)
    (s : option Session) : World :=
  (run script w (onAuthStateChange_callback s)).1.

Definition after_fetch (script : list Mode) (w : World)
    (response : Response (option Session)) : World :=
  (run script w (getSession_then response)).1.

(** The mode in which the i-th [await] of a run is answered. *)
Definition answer (script : list Mode) (i : nat) : Mode :=
  default Succeed (script !! i).

(** What a notification with a session does to the request log and to
    the table: nothing, a lookup only, or a lookup and an update. *)
Inductive sync_outcome (script : list Mode) (w : World) (s : Session)
    (w' : World) : Prop :=
| sync_skipped :
    truthy (provider_id_of s) = false ->
    requests w' = requests w ->
    profiles w' = profiles w ->
    sync_outcome script w s w'
| sync_looked_up :
    truthy (provider_id_of s) = true ->
    (answer script 0 <> Succeed \/
     forall row, rows_of (id (session_user s)) (profiles w) = [row] ->
                 truthy (get_prop row "discord_id") = true) ->
    requests w' = requests w ++ [select_request (id (session_user s))] ->
    profiles w' = profiles w ->
    sync_outcome script w s w'
| sync_updated (row : Row) :
    truthy (provider_id_of s) = true ->
    answer script 0 = Succeed ->
    rows_of (id (session_user s)) (profiles w) = [row] ->
    truthy (get_prop row "discord_id") = false ->
    requests w' = requests w ++ [select_request (id (session_user s));
                                 update_request (provider_id_of s) (id (session_user s))] ->
    profiles w' = match answer script 1 with
                  | Succeed =>
                      update_rows {[ "discord_id" := provider_id_of s ]}
                                  "user_id" (id (session_user s)) (profiles w)
                  | _ => profiles w
                  end ->
    sync_outcome script w s w'.

(** What an update may change in a row: nothing in the rows of other
    users, and nothing but [discord_id] in any row. *)
Definition framed (uid : string) (row row' : Row) : Prop :=
  (eq_filter "user_id" uid row = false -> row' = row) /\
  (forall column, column <> "discord_id" -> row' !! column = row !! column).

(** ** Sample rows *)

Definition row_linked : Row :=
  {[ "user_id" := JStr "u-1"; "discord_id" := JStr "X"; "hunter_name" := JStr "Alice" ]}.

Definition row_unlinked : Row :=
  {[ "user_id" := JStr "u-1"; "discord_id" := JNull; "hunter_name" := JStr "Alice" ]}.

Definition row_blank : Row :=
  {[ "user_id" := JStr "u-1"; "discord_id" := JStr ""; "hunter_name" := JStr "Alice" ]}.

Definition row_bob : Row :=
  {[ "user_id" := JStr "u-2"; "discord_id" := JNull; "hunter_name" := JStr "Bob" ]}.

Definition store (rows : list Row) : World := mkWorld None None true rows [] [].

Definition carol : User :=
  mkUser "u-1" None (Some {[ "provider_id" := JStr "" ]}).

(** ** The [loading] flag along a run *)

(** [p] never calls [setLoading], however its awaits are answered. *)
Fixpoint keeps_loading {A : Type} (p : Async A) : Prop :=
  match p with
  | Ret _ | Throw _ => True
  | SetSession _ k | SetUser _ k | ConsoleLog _ k => keeps_loading k
  | SetLoading _ _ => False
  | Await c k => forall r, keeps_loading (k r)
  end.

Definition parked_keeps (pk : Parked) : Prop :=
  forall r, keeps_loading (parked_k pk r).

(** The event is the fulfilment of a session fetch that is under way. *)
Definition resolves (sys : System) (ev : Event) : bool :=
  match ev, fetching sys with
  | SessionFetched (Fulfilled _), S _ => true
  | _, _ => false
  end.

(** The event settles a session fetch, either way. *)
Definition is_SessionFetched (ev : Event) : bool :=
  match ev with
  | SessionFetched _ => true
  | _ => false
  end.

(** Some event of the run from [sys] resolves a session fetch. *)
Fixpoint resolved (window : Window) (sys : System) (evs : list Event) : bool :=
  match evs with
  | [] => false
  | ev :: evs => resolves sys ev || resolved window (step window sys ev) evs
  end.

(** The values of [loading] along a run, the starting one first. *)
Fixpoint loading_history (window : Window) (sys : System) (evs : list Event)
    : list bool :=
  loading (world sys) ::
  match evs with
  | [] => []
  | ev :: evs => loading_history window (step window sys ev) evs
  end.

(** The number of places where a history goes from [true] to [false],
    and from [false] to [true]. *)
Fixpoint falls (h : list bool) : nat :=
  match h with
  | [] => 0
  | b :: t => (match b, t with true, false :: _ => 1 | _, _ => 0 end) + falls t
  end.

Fixpoint rises (h : list bool) : nat :=
  match h with
  | [] => 0
  | b :: t => (match b, t with false, true :: _ => 1 | _, _ => 0 end) + rises t
  end.

Definition parked_ok (sys : System) : Prop := Forall parked_keeps (parked sys).

(** ** Releases of the subscription *)

Definition is_unsubscribe (n : nat) (r : Request) : bool :=
  match r with
  | subscription_unsubscribe m => Nat.eqb m n
  | _ => false
  end.

(** How many times the log releases subscription [n]. *)
Definition releases (n : nat) (log : list Request) : nat :=
  length (filter (fun r => is_unsubscribe n r) log).

(** Every subscription made so far is the one the mounted effect holds,
    not released yet, or was released once; the client notifies the held
    one and no other. *)
Definition subscriptions_ok (sys : System) : Prop :=
  (forall n, cleanup sys = Some n -> n < next_subscription sys) /\
  listeners sys = option_list (cleanup sys) /\
  forall n, releases n (requests (world sys))
            = if bool_decide (n < next_subscription sys /\ cleanup sys <> Some n)
              then 1 else 0.

(** ** A handler running alone in the event loop *)

(** The events that settle, [n] times in a row, the promise awaited by
    the only parked function, in the modes of [script]. *)
Definition settle_lone (script : list Mode) (n : nat) : list Event :=
  (fun i => Settle 0 (answer script i)) <$> seq 0 n.

(** ** Results of the actions *)

(** What an action that awaits one call and returns [{ error }] hands to
    its caller, by the way that call is answered. *)
Definition action_completion (script : list Mode) : Completion ErrorResult :=
  match answer script 0 with
  | Succeed => Returned {| result_error := None |}
  | Fail e => Returned {| result_error := Some e |}
  | Reject e => Thrown e
  end.

(** The line the fetch handler writes after its update. *)
Definition linked_line (discordId : JsVal) : list JsVal :=
  [JStr "✅ Discord ID linked:"; discordId].

(** A user whose identity carries no metadata. *)
Definition dave : User := mkUser "u-1" None None.

(** ** Functions that leave the React state alone *)

(** [p] calls none of the three state setters, however its awaits are
    answered. *)
Fixpoint keeps_state {A : Type} (p : Async A) : Prop :=
  match p with
  | Ret _ | Throw _ => True
  | ConsoleLog _ k => keeps_state k
  | SetSession _ _ | SetUser _ _ | SetLoading _ _ => False
  | Await c k => forall r, keeps_state (k r)
  end.

Definition parked_quiet (pk : Parked) : Prop :=
  forall r, keeps_state (parked_k pk r).

(** The event is a call of the exposed [signOut]. *)
Definition calls_signOut (ev : Event) : bool :=
  match ev with
  | Invoke call_signOut => true
  | _ => false
  end.

(** A second session of the user "u-1", carrying another provider id. *)
Definition erin_session : Session :=
  mkSession "token-2" (mkUser "u-1" None (Some {[ "provider_id" := JStr "Z" ]})).

(** ** Writes to the profile table *)

(** The call, if it is an update, carries no column but [discord_id]. *)
Definition writes_discord_id_only (c : Call) : Prop :=
  match c with
  | profiles_update payload _ _ =>
      forall column, column <> "discord_id" -> payload !! column = None
  | _ => True
  end.

(** Every call [p] can come to await is such a call. *)
Fixpoint tame {A : Type} (p : Async A) : Prop :=
  match p with
  | Ret _ | Throw _ => True
  | SetSession _ k | SetUser _ k | SetLoading _ k | ConsoleLog _ k => tame k
  | Await c k => writes_discord_id_only c /\ forall r, tame (k r)
  end.

Definition parked_tame (pk : Parked) : Prop :=
  writes_discord_id_only (parked_call pk) /\ forall r, tame (parked_k pk r).

(** Two tables with the same rows, row by row, up to [discord_id]. *)
Definition same_but_discord_id (rows rows' : list Row) : Prop :=
  Forall2 (fun row row' : Row =>
             forall column, column <> "discord_id" -> row' !! column = row !! column)
          rows rows'.

(** * Properties *)

(** ** Unfolding the programs *)

Ltac unfold_async :=
  unfold onAuthStateChange_callback, getSession_then, signUp, signIn,
    signInWithDiscord, resetPassword, signOut, discard, when, await,
    setSession, setUser, setLoading, console_log, mbind, Async_bind,
    mret, Async_ret;
  cbn.

(** Case analysis on the next answer of the backend. *)
Ltac next_mode :=
  match goal with
  | |- context [default Succeed (head ?script)] =>
      let m := fresh "m" in
      let Hm := fresh "Hm" in
      destruct (default Succeed (head script)) as [| ? | ?] eqn:Hm; cbn
  end.

(** ** Sign-out *)

Lemma signOut_fulfilled script w :
  rejects script = false ->
  run script w signOut
  = (set_session None
       (set_user None (log_request (Issued auth_signOut) w)), Returned tt).
Proof.
  unfold rejects. intros Hrej. unfold_async.
  destruct script as [| [| e | e] script]; cbn in *; try discriminate;
    destruct w; reflexivity.
Qed.

Lemma signOut_rejected e script w :
  run (Reject e :: script) w signOut
  = (log_request (Issued auth_signOut) w, Thrown e).
Proof. unfold_async. destruct w; reflexivity. Qed.

(** C1, as amended: whenever the promise of [supabase.auth.signOut()] is
    fulfilled, with an error in its response or without one, [signOut]
    returns with [user] and [session] both null; the clearing does not
    look at the response. *)
Theorem signOut_clears_when_fulfilled (script : list Mode) (w : World) :
  rejects script = false ->
  let '(w', completion) := run script w signOut in
  user w' = None /\ session w' = None /\ completion = Returned tt.
Proof.
  intros Hrej. rewrite (signOut_fulfilled _ _ Hrej). cbn. auto.
Qed.

Lemma signOut_clears_when_fulfilled_witness :
  rejects [Fail (mkError "network")] = false /\
  let '(w', completion) := run [Fail (mkError "network")] signed_in signOut in
  user w' = None /\ session w' = None /\ completion = Returned tt.
Proof.
  split; [reflexivity |].
  apply (signOut_clears_when_fulfilled [Fail (mkError "network")] signed_in).
  reflexivity.
Defined.

(** C1, as stated, fails: when the promise of the backend call rejects,
    the [await] throws, [signOut] ends there and both [user] and
    [session] are still set. *)
Lemma signOut_rejected_keeps_session :
  let '(w', completion) := run [Reject (mkError "lock")] signed_in signOut in
  user w' = Some alice /\ session w' = Some alice_session /\
  user w' <> None /\ session w' <> None /\
  completion = Thrown (mkError "lock").
Proof. cbn. repeat split; discriminate. Qed.

(** ** [useAuth] *)

(** C6: with no enclosing provider [useAuth] throws, as the completion
    of the call itself; under a provider it returns the provider's
    value. *)
Theorem useAuth_outside_provider_throws :
  useAuth [] = Thrown (mkError "useAuth must be used within an AuthProvider") /\
  forall (value : AuthContextType.t) (enclosing : list AuthContextType.t),
    useAuth (value :: enclosing) = Returned value.
Proof. split; [reflexivity | intros; reflexivity]. Qed.

(** ** Sign-up *)

(** C7: [signUp] sends one request, [auth.signUp], with the email and
    password it was given, the metadata object [{hunter_name: hunterName}]
    and [emailRedirectTo] equal to the origin followed by a slash; it
    returns the error of the response. *)
Theorem signUp_request (window : Window) (email password hunterName : string)
    (script : list Mode) (w : World) :
  requests (run script w (signUp window email password hunterName)).1
  = requests w ++
      [Issued (auth_signUp
         {| cred_email := email;
            cred_password := password;
            cred_options :=
              {| emailRedirectTo := String.append (location_origin window) "/";
                 options_data := {[ "hunter_name" := JStr hunterName ]} |} |})].
Proof. unfold_async. next_mode; reflexivity. Qed.

(** ** Profile sync: what one run of a handler does to the store *)

Lemma single_data (rows : list Row) (profile : Row) :
  data (single rows) = Some profile -> rows = [profile].
Proof.
  destruct rows as [| row [| row' rows]]; cbn; intros H; try discriminate.
  by inversion H.
Qed.

Lemma get_prop_select_column (column : string) (row : Row) :
  get_prop (select_column column row) column = get_prop row column.
Proof.
  unfold get_prop, select_column.
  destruct (row !! column) as [v |] eqn:Hv; cbn.
  - by rewrite lookup_singleton_eq.
  - by rewrite lookup_empty.
Qed.

Lemma selected_profile (uid : string) (rows : list Row) (profile : Row) :
  data (single (select_column "discord_id" <$> rows_of uid rows)) = Some profile ->
  exists row, rows_of uid rows = [row] /\
              get_prop profile "discord_id" = get_prop row "discord_id".
Proof.
  intros H. apply single_data in H.
  destruct (rows_of uid rows) as [| row [| row' rest]]; cbn in H; try discriminate.
  exists row. split; [reflexivity |].
  inversion H. apply get_prop_select_column.
Qed.

Lemma selected_single (uid : string) (rows : list Row) (row : Row) :
  rows_of uid rows = [row] ->
  data (single (select_column "discord_id" <$> rows_of uid rows))
  = Some (select_column "discord_id" row).
Proof. intros ->. reflexivity. Qed.

Lemma selected_none (uid : string) (rows : list Row) :
  (forall row, rows_of uid rows <> [row]) ->
  data (single (select_column "discord_id" <$> rows_of uid rows)) = None.
Proof.
  intros H. destruct (rows_of uid rows) as [| row [| row' rest]]; cbn; try done.
  by destruct (H row).
Qed.

Lemma answer_head (script : list Mode) :
  default Succeed (head script) = answer script 0.
Proof. unfold answer. by rewrite head_lookup. Qed.

Lemma answer_tail (script : list Mode) (i : nat) :
  answer (tail script) i = answer script (S i).
Proof. unfold answer. by rewrite lookup_tail. Qed.

Lemma app_assoc_2 {A : Type} (l : list A) (x y : A) :
  (l ++ [x]) ++ [y] = l ++ [x; y].
Proof. by rewrite <- app_assoc. Qed.

Lemma notification_outcome (script : list Mode) (w : World) (s : Session) :
  sync_outcome script w s (after_notification script w (Some s)).
Proof.
  unfold after_notification. unfold_async.
  fold (provider_id_of s).
  destruct (truthy (provider_id_of s)) eqn:Hpid; cbn;
    [| by apply sync_skipped].
  next_mode; rewrite answer_head in Hm.
  - fold (rows_of (id (session_user s)) (profiles w)).
    destruct (data (single _)) as [profile |] eqn:Hsel; cbn.
    + apply selected_profile in Hsel as (row & Hrows & Hget).
      rewrite Hget.
      destruct (truthy (get_prop row "discord_id")) eqn:Hd; cbn.
      * apply sync_looked_up; try done.
        right. intros row' Hrow'. rewrite Hrows in Hrow'. by simplify_eq.
      * apply (sync_updated _ _ _ _ row); try done;
          rewrite <- ?answer_tail, <- ?answer_head.
        -- next_mode; cbn; by rewrite app_assoc_2.
        -- next_mode; reflexivity.
    + apply sync_looked_up; try done.
      right. intros row Hrow. apply selected_single in Hrow. congruence.
  - apply sync_looked_up; try done. left. congruence.
  - apply sync_looked_up; try done. left. congruence.
Qed.

(** The handler of the fetch treats the store exactly as the handler of
    a notification does. *)
Lemma fetch_as_notification (script : list Mode) (w : World)
    (response : Response (option Session)) :
  profiles (after_fetch script w response)
  = profiles (after_notification script w (data response)) /\
  requests (after_fetch script w response)
  = requests (after_notification script w (data response)).
Proof.
  unfold after_fetch, after_notification. unfold_async.
  destruct (data response) as [s |]; cbn; [| done].
  destruct (truthy _); cbn; [| done].
  next_mode; try done.
  destruct (data (single _)) as [profile |]; cbn; [| done].
  destruct (truthy _); cbn; [done |].
  next_mode; done.
Qed.

Lemma fetch_outcome (script : list Mode) (w : World) (s : Session)
    (e : option Error) :
  sync_outcome script w s (after_fetch script w (mkResponse (Some s) e)).
Proof.
  destruct (fetch_as_notification script w (mkResponse (Some s) e)) as [Hp Hr].
  cbn in Hp, Hr.
  destruct (notification_outcome script w s) as [? Hr' Hp' | ? ? Hr' Hp' | row ? ? ? ? Hr' Hp'].
  - apply sync_skipped; congruence.
  - apply sync_looked_up; congruence.
  - apply (sync_updated _ _ _ _ row); congruence.
Qed.

(** ** Profile sync: the update and the rows it leaves alone *)

Lemma eq_filter_lookup (column value : string) (row : Row) :
  row !! column = Some (JStr value) -> eq_filter column value row = true.
Proof. unfold eq_filter. intros ->. apply String.eqb_refl. Qed.

Lemma truthy_nonempty (X : string) : X <> "" -> truthy (JStr X) = true.
Proof. intros HX. cbn. by apply negb_true_iff, String.eqb_neq. Qed.

Lemma payload_union (v : JsVal) (row : Row) :
  {[ "discord_id" := v ]} ∪ row = <[ "discord_id" := v ]> row.
Proof. by rewrite insert_union_singleton_l. Qed.

Lemma eq_filter_updated (v : JsVal) (uid : string) (row : Row) :
  eq_filter "user_id" uid (<[ "discord_id" := v ]> row)
  = eq_filter "user_id" uid row.
Proof. unfold eq_filter. by rewrite lookup_insert_ne. Qed.

Lemma rows_of_update (v : JsVal) (uid : string) (rows : list Row) :
  rows_of uid (update_rows {[ "discord_id" := v ]} "user_id" uid rows)
  = (fun row => <[ "discord_id" := v ]> row) <$> rows_of uid rows.
Proof.
  unfold rows_of, update_rows.
  induction rows as [| row rows IH]; [reflexivity |].
  rewrite fmap_cons, !filter_cons, IH.
  destruct (eq_filter "user_id" uid row) eqn:Hrow.
  - rewrite payload_union, eq_filter_updated, Hrow.
    repeat case_decide; done.
  - rewrite Hrow. repeat case_decide; done.
Qed.

Lemma framed_refl (uid : string) (rows : list Row) :
  Forall2 (framed uid) rows rows.
Proof. induction rows as [| row rows IH]; constructor; [by split | done]. Qed.

Lemma framed_update (v : JsVal) (uid : string) (rows : list Row) :
  Forall2 (framed uid) rows
          (update_rows {[ "discord_id" := v ]} "user_id" uid rows).
Proof.
  unfold update_rows. induction rows as [| row rows IH]; cbn; constructor; [| done].
  destruct (eq_filter "user_id" uid row) eqn:Hrow; split; try done.
  - congruence.
  - intros column Hc. rewrite payload_union. by rewrite lookup_insert_ne.
Qed.

Lemma outcome_framed (script : list Mode) (w : World) (s : Session) (w' : World) :
  sync_outcome script w s w' ->
  Forall2 (framed (id (session_user s))) (profiles w) (profiles w').
Proof.
  intros [? ? -> | ? ? ? -> | row ? ? ? ? ? ->]; try apply framed_refl.
  destruct (answer script 1); try apply framed_refl. apply framed_update.
Qed.

(** A row of the user that already holds an id keeps every run of the
    sync from writing. *)
Lemma outcome_kept (script : list Mode) (w : World) (s : Session) (w' : World)
    (row : Row) :
  sync_outcome script w s w' ->
  row ∈ profiles w ->
  eq_filter "user_id" (id (session_user s)) row = true ->
  truthy (get_prop row "discord_id") = true ->
  profiles w' = profiles w /\
  requests w' = requests w ++
    (if truthy (provider_id_of s)
     then [select_request (id (session_user s))] else []).
Proof.
  intros [Hpid Hr Hp | Hpid _ Hr Hp | row' _ _ Hrows Hd _ _] Hin Hrow Hkeep.
  - rewrite Hpid, app_nil_r. done.
  - rewrite Hpid. done.
  - assert (row ∈ rows_of (id (session_user s)) (profiles w)) as Hin'.
    { apply list_elem_of_filter. split; [by rewrite Hrow | done]. }
    rewrite Hrows in Hin'. apply list_elem_of_singleton in Hin' as ->. congruence.
Qed.

(** Without a row for the user the sync never writes. *)
Lemma outcome_no_row (script : list Mode) (w : World) (s : Session) (w' : World) :
  sync_outcome script w s w' ->
  rows_of (id (session_user s)) (profiles w) = [] ->
  profiles w' = profiles w /\
  requests w' = requests w ++
    (if truthy (provider_id_of s)
     then [select_request (id (session_user s))] else []).
Proof.
  intros [Hpid Hr Hp | Hpid _ Hr Hp | row' _ _ Hrows Hd _ _] Hnone.
  - rewrite Hpid, app_nil_r. done.
  - rewrite Hpid. done.
  - congruence.
Qed.

(** With exactly one row for the user, empty there, and a lookup that
    is answered, the update is issued; once applied the row holds the
    id. *)
Lemma outcome_written (script : list Mode) (w : World) (s : Session) (w' : World)
    (row : Row) :
  sync_outcome script w s w' ->
  rows_of (id (session_user s)) (profiles w) = [row] ->
  truthy (get_prop row "discord_id") = false ->
  truthy (provider_id_of s) = true ->
  answer script 0 = Succeed ->
  requests w' = requests w ++
    [select_request (id (session_user s));
     update_request (provider_id_of s) (id (session_user s))] /\
  (answer script 1 = Succeed ->
   rows_of (id (session_user s)) (profiles w')
   = [<[ "discord_id" := provider_id_of s ]> row]).
Proof.
  intros [Hpid Hr Hp | Hpid Hno Hr Hp | row' _ _ Hrows Hd Hr Hp] Hone Hempty Htrue Hsel.
  - congruence.
  - destruct Hno as [Hno | Hno]; [done |]. specialize (Hno _ Hone). congruence.
  - split; [done |]. intros Hupd. rewrite Hp, Hupd, rows_of_update, Hone. done.
Qed.

(** The requests a run of the sync adds are the lookup of the user's
    row and the update of [discord_id] in it, and no other. *)
Lemma outcome_requests (script : list Mode) (w : World) (s : Session) (w' : World) :
  sync_outcome script w s w' ->
  exists issued,
    requests w' = requests w ++ issued /\
    Forall (fun r => r = select_request (id (session_user s)) \/
                     r = update_request (provider_id_of s) (id (session_user s)))
           issued.
Proof.
  intros [_ Hr _ | _ _ Hr _ | row' _ _ _ _ Hr _].
  - exists []. by rewrite app_nil_r.
  - eexists. split; [done |]. apply Forall_cons. auto.
  - eexists. split; [done |]. apply Forall_cons. split; [auto |].
    apply Forall_cons. auto.
Qed.

(** ** Profile sync: overwrite, backfill, frame and truthiness *)

(** C2: when the user's profile row holds a non-empty [discord_id] "X"
    and the session's metadata carries the provider id "Y", neither
    handler issues an update, whatever the backend answers: the table is
    the one before, and the only request added is the lookup. *)
Theorem sync_never_overwrites (script : list Mode) (w : World) (s : Session)
    (e : option Error) (row : Row) (X Y : string) :
  row ∈ profiles w ->
  row !! "user_id" = Some (JStr (id (session_user s))) ->
  row !! "discord_id" = Some (JStr X) ->
  X <> "" ->
  provider_id_of s = JStr Y ->
  let kept w' :=
    profiles w' = profiles w /\
    row ∈ profiles w' /\
    requests w' = requests w ++
      (if truthy (JStr Y) then [select_request (id (session_user s))] else []) in
  kept (after_notification script w (Some s)) /\
  kept (after_fetch script w (mkResponse (Some s) e)).
Proof.
  intros Hin Huid Hx HX HY kept.
  assert (truthy (get_prop row "discord_id") = true) as Hkeep.
  { unfold get_prop. rewrite Hx. by apply truthy_nonempty. }
  apply eq_filter_lookup in Huid.
  split.
  - destruct (outcome_kept _ _ _ _ row (notification_outcome script w s))
      as [Hp Hr]; try done.
    unfold kept. rewrite Hp, Hr, HY. done.
  - destruct (outcome_kept _ _ _ _ row (fetch_outcome script w s e))
      as [Hp Hr]; try done.
    unfold kept. rewrite Hp, Hr, HY. done.
Qed.

Lemma sync_never_overwrites_witness :
  let w := store [row_linked; row_bob] in
  let w' := after_notification [] w (Some alice_session) in
  row_linked ∈ profiles w /\
  profiles w' = profiles w /\
  row_linked ∈ profiles w' /\
  requests w' = [select_request "u-1"].
Proof.
  intros w w'.
  assert (row_linked ∈ profiles w) as Hin by apply list_elem_of_here.
  split; [exact Hin |].
  apply (sync_never_overwrites [] w alice_session None row_linked "X" "Y");
    [exact Hin | reflexivity | reflexivity | discriminate | reflexivity].
Defined.

(** C3: when the user has exactly one profile row, its [discord_id] is
    empty or absent, the metadata carries a provider id "Y" and the
    lookup is answered, both handlers issue the update of [discord_id] to
    "Y" for that user; once the backend applies it, the row holds "Y". *)
Theorem sync_writes_when_absent (script : list Mode) (w : World) (s : Session)
    (e : option Error) (row : Row) (Y : string) :
  rows_of (id (session_user s)) (profiles w) = [row] ->
  truthy (get_prop row "discord_id") = false ->
  provider_id_of s = JStr Y ->
  Y <> "" ->
  answer script 0 = Succeed ->
  let written w' :=
    requests w' = requests w ++
      [select_request (id (session_user s));
       update_request (JStr Y) (id (session_user s))] /\
    (answer script 1 = Succeed ->
     rows_of (id (session_user s)) (profiles w')
     = [<[ "discord_id" := JStr Y ]> row]) in
  written (after_notification script w (Some s)) /\
  written (after_fetch script w (mkResponse (Some s) e)).
Proof.
  intros Hone Hempty HY HYne Hsel written.
  assert (truthy (provider_id_of s) = true) as Hpid.
  { rewrite HY. by apply truthy_nonempty. }
  unfold written. rewrite <- HY.
  split.
  - by apply (outcome_written script w s _ row (notification_outcome script w s)).
  - by apply (outcome_written script w s _ row (fetch_outcome script w s e)).
Qed.

Lemma sync_writes_when_absent_witness :
  let w := store [row_bob; row_unlinked] in
  let w' := after_notification [] w (Some alice_session) in
  rows_of "u-1" (profiles w) = [row_unlinked] /\
  requests w' = [select_request "u-1"; update_request (JStr "Y") "u-1"] /\
  rows_of "u-1" (profiles w') = [<[ "discord_id" := JStr "Y" ]> row_unlinked].
Proof.
  intros w w'.
  destruct (sync_writes_when_absent [] w alice_session None row_unlinked "Y")
    as [[Hr Hp] _];
    [reflexivity | reflexivity | reflexivity | discriminate | reflexivity |].
  split; [reflexivity |]. split; [exact Hr | apply Hp; reflexivity].
Defined.

(** C9: the sync never inserts or deletes a row, changes no row of
    another user and no column other than [discord_id], and the only
    requests it adds are the lookup by the user's id and the update of
    [discord_id] filtered by the user's id; when no row exists for that
    id it writes nothing at all. *)
Theorem sync_frame (script : list Mode) (w : World) (s : Session)
    (e : option Error) :
  let uid := id (session_user s) in
  let framed_run w' :=
    (rows_of uid (profiles w) = [] ->
     profiles w' = profiles w /\
     requests w' = requests w ++
       (if truthy (provider_id_of s) then [select_request uid] else [])) /\
    Forall2 (framed uid) (profiles w) (profiles w') /\
    (exists issued,
       requests w' = requests w ++ issued /\
       Forall (fun r => r = select_request uid \/
                        r = update_request (provider_id_of s) uid) issued) in
  framed_run (after_notification script w (Some s)) /\
  framed_run (after_fetch script w (mkResponse (Some s) e)).
Proof.
  intros uid framed_run. unfold framed_run, uid.
  pose proof (notification_outcome script w s) as Hn.
  pose proof (fetch_outcome script w s e) as Hf.
  split; (split; [| split]);
    eauto using outcome_no_row, outcome_framed, outcome_requests.
Qed.

Lemma sync_frame_witness :
  let w := store [row_bob] in
  let w' := after_notification [] w (Some alice_session) in
  rows_of "u-1" (profiles w) = [] /\
  profiles w' = [row_bob] /\
  requests w' = [select_request "u-1"].
Proof.
  intros w w'.
  destruct (sync_frame [] w alice_session None) as [[Hnone _] _].
  split; [reflexivity |]. apply Hnone. reflexivity.
Defined.

(** C10: both gates are truthiness tests.  A metadata [provider_id]
    that is falsy, the empty string for one, leaves the store and the
    request log untouched; a row whose [discord_id] is the empty string
    counts as having none and is overwritten with the provider id. *)
Theorem sync_gates_are_truthiness (script : list Mode) (w : World) (s : Session)
    (e : option Error) :
  let uid := id (session_user s) in
  let gated w' :=
    (truthy (provider_id_of s) = false ->
     requests w' = requests w /\ profiles w' = profiles w) /\
    (forall row,
       truthy (provider_id_of s) = true ->
       rows_of uid (profiles w) = [row] ->
       row !! "discord_id" = Some (JStr "") ->
       answer script 0 = Succeed ->
       answer script 1 = Succeed ->
       requests w' = requests w ++
         [select_request uid; update_request (provider_id_of s) uid] /\
       rows_of uid (profiles w') = [<[ "discord_id" := provider_id_of s ]> row]) in
  truthy (JStr "") = false /\
  gated (after_notification script w (Some s)) /\
  gated (after_fetch script w (mkResponse (Some s) e)).
Proof.
  intros uid gated. unfold gated, uid.
  assert (forall w', sync_outcome script w s w' ->
            truthy (provider_id_of s) = false ->
            requests w' = requests w /\ profiles w' = profiles w) as Hskip.
  { intros w' [Hpid Hr Hp | Hpid _ _ _ | row' Hpid _ _ _ _ _] Hfalse;
      [done | congruence | congruence]. }
  assert (forall w' row, sync_outcome script w s w' ->
            truthy (provider_id_of s) = true ->
            rows_of (id (session_user s)) (profiles w) = [row] ->
            row !! "discord_id" = Some (JStr "") ->
            answer script 0 = Succeed ->
            answer script 1 = Succeed ->
            requests w' = requests w ++
              [select_request (id (session_user s));
               update_request (provider_id_of s) (id (session_user s))] /\
            rows_of (id (session_user s)) (profiles w')
            = [<[ "discord_id" := provider_id_of s ]> row]) as Hblank.
  { intros w' row Hout Hpid Hone Hd Hsel Hupd.
    destruct (outcome_written script w s w' row Hout) as [Hr Hp]; try done.
    - unfold get_prop. by rewrite Hd.
    - split; [done | by apply Hp]. }
  pose proof (notification_outcome script w s) as Hn.
  pose proof (fetch_outcome script w s e) as Hf.
  split; [reflexivity |]. split; split; eauto.
Qed.

Lemma sync_gates_are_truthiness_witness :
  let w := store [row_blank] in
  (let w' := after_notification [] w (Some (mkSession "t" carol)) in
   requests w' = [] /\ profiles w' = [row_blank]) /\
  (let w' := after_notification [] w (Some alice_session) in
   requests w' = [select_request "u-1"; update_request (JStr "Y") "u-1"] /\
   rows_of "u-1" (profiles w') = [<[ "discord_id" := JStr "Y" ]> row_blank]).
Proof.
  intros w. split.
  - destruct (sync_gates_are_truthiness [] w (mkSession "t" carol) None)
      as (_ & [Hskip _] & _).
    apply Hskip. reflexivity.
  - destruct (sync_gates_are_truthiness [] w alice_session None)
      as (_ & [_ Hblank] & _).
    apply (Hblank row_blank); reflexivity.
Defined.

(** ** The event loop: what a notification does to [user] *)

Lemma start_world (p : Async unit) (sys : System) :
  world (start p sys) = (advance (world sys) p).1.
Proof. unfold start. by destruct (advance (world sys) p). Qed.

Lemma start_parked (p : Async unit) (sys : System) :
  parked (start p sys) = parked sys ++ option_list (advance (world sys) p).2.
Proof. unfold start. by destruct (advance (world sys) p). Qed.

Lemma start_control (p : Async unit) (sys : System) :
  listeners (start p sys) = listeners sys /\
  next_subscription (start p sys) = next_subscription sys /\
  cleanup (start p sys) = cleanup sys /\
  fetching (start p sys) = fetching sys.
Proof. unfold start. by destruct (advance (world sys) p). Qed.

Lemma steps_snoc (window : Window) (sys : System) (evs : list Event) (ev : Event) :
  steps window sys (evs ++ [ev]) = step window (steps window sys evs) ev.
Proof. unfold steps. by rewrite foldl_app. Qed.

Lemma callback_sets_user (w : World) (s : option Session) :
  let w' := (advance w (onAuthStateChange_callback s)).1 in
  user w' = session_user <$> s /\ session w' = s.
Proof.
  unfold_async. destruct s as [s |]; cbn; [| done].
  destruct (truthy _); cbn; done.
Qed.

Lemma notified_user (window : Window) (sys : System) (s : option Session) :
  listeners sys <> [] ->
  let sys' := step window sys (AuthStateChange s) in
  user (world sys') = session_user <$> s /\ session (world sys') = s.
Proof.
  intros Hsub. cbn.
  destruct (listeners sys) as [| l ls]; [done |]. cbn.
  rewrite start_world. apply callback_sets_user.
Qed.

Lemma notify_each_control (s : option Session) (sys : System) (ls : list nat) :
  let sys' := foldr (fun _ acc => start (onAuthStateChange_callback s) acc) sys ls in
  listeners sys' = listeners sys /\ next_subscription sys' = next_subscription sys /\
  cleanup sys' = cleanup sys /\ fetching sys' = fetching sys.
Proof.
  induction ls as [| l ls IH]; cbn [foldr]; [done |].
  destruct (start_control (onAuthStateChange_callback s)
              (foldr (fun _ acc => start (onAuthStateChange_callback s) acc) sys ls))
    as (-> & -> & -> & ->).
  exact IH.
Qed.

Lemma notified_control (window : Window) (sys : System) (s : option Session) :
  let sys' := step window sys (AuthStateChange s) in
  listeners sys' = listeners sys /\ cleanup sys' = cleanup sys.
Proof.
  destruct (notify_each_control s sys (listeners sys)) as (? & _ & ? & _). done.
Qed.

(** C4: after any history of events, a change notification that finds
    the provider subscribed leaves [user] equal to the user of the
    notified session, null when the session is null, and [session] equal
    to the notified session. *)
Theorem user_follows_notification (window : Window) (rows : list Row)
    (evs : list Event) (s : option Session) :
  listeners (steps window (initial rows) evs) <> [] ->
  let after := steps window (initial rows) (evs ++ [AuthStateChange s]) in
  user (world after) = session_user <$> s /\ session (world after) = s.
Proof. intros Hsub. rewrite steps_snoc. by apply notified_user. Qed.

Lemma user_follows_notification_witness :
  let evs := [Mount; AuthStateChange (Some alice_session);
              SessionFetched (Fulfilled (mkResponse (Some alice_session) None))] in
  listeners (steps (mkWindow "https://app") (initial []) evs) <> [] /\
  let after := steps (mkWindow "https://app") (initial []) (evs ++ [AuthStateChange None]) in
  user (world after) = None /\ session (world after) = None.
Proof.
  intros evs.
  assert (listeners (steps (mkWindow "https://app") (initial []) evs) <> [])
    as Hsub by (vm_compute; discriminate).
  split; [exact Hsub |].
  exact (user_follows_notification (mkWindow "https://app") [] evs None Hsub).
Defined.

(** Every notification of a sequence delivered after the mount is
    processed, so [user] follows the last one. *)
Lemma user_follows_last_notification (window : Window) (rows : list Row)
    (ss : list (option Session)) (s : option Session) :
  user (world (steps window (initial rows)
                 (Mount :: (AuthStateChange <$> ss) ++ [AuthStateChange s])))
  = session_user <$> s.
Proof.
  rewrite app_comm_cons, steps_snoc.
  apply notified_user.
  assert (forall sys, listeners sys <> [] ->
            listeners (steps window sys (AuthStateChange <$> ss)) <> []) as Hkeep.
  { induction ss as [| s0 ss IH]; intros sys Hsys; [done |].
    cbn. apply IH.
    destruct (notified_control window sys s0) as [Hl _]. cbn in Hl. by rewrite Hl. }
  cbn. apply Hkeep. cbn. discriminate.
Qed.

(** ** The event loop: a handler running alone

    [run] is the event loop with one function in it: started in a
    system where nothing is parked and settled each time in the mode of
    the script, a handler leaves the world [run] computes. *)

Lemma settle_lone_S (script : list Mode) (n : nat) :
  settle_lone script (S n)
  = Settle 0 (answer script 0) :: settle_lone (tail script) n.
Proof.
  unfold settle_lone. cbn [seq fmap list_fmap]. f_equal.
  rewrite <- fmap_S_seq, <- list_fmap_compose.
  apply list_fmap_ext. intros i x _. cbn. by rewrite answer_tail.
Qed.

Lemma settle_idle (window : Window) (script : list Mode) (n : nat) (sys : System) :
  parked sys = [] -> steps window sys (settle_lone script n) = sys.
Proof.
  revert script. induction n as [| n IH]; intros script Hp; [done |].
  rewrite settle_lone_S. cbn. rewrite Hp. cbn. by apply IH.
Qed.

Lemma start_step (p : Async unit) (sys : System) :
  match p with
  | SetSession s k => start p sys = start k (with_world (set_session s (world sys)) sys)
  | SetUser u k => start p sys = start k (with_world (set_user u (world sys)) sys)
  | SetLoading b k => start p sys = start k (with_world (set_loading b (world sys)) sys)
  | ConsoleLog args k => start p sys = start k (with_world (log_console args (world sys)) sys)
  | Ret _ | Throw _ => start p sys = with_parked (parked sys ++ []) sys
  | Await c k => start p sys = with_parked (parked sys ++ [mkParked c k]) (with_world (log_request (Issued c) (world sys)) sys)
  end.
Proof. destruct p; unfold start; cbn; try done; by destruct (advance _ _). Qed.

Lemma lone_schedule (window : Window) (p : Async unit) (script : list Mode)
    (sys : System) :
  parked sys = [] ->
  exists n, forall k, n <= k ->
    world (steps window (start p sys) (settle_lone script k))
    = (run script (world sys) p).1.
Proof.
  revert script sys.
  induction p as [a | e | s k IH | u k IH | b k IH | args k IH | c k IH];
    intros script sys Hp.
  - exists 0. intros k _. rewrite (start_step (Ret a)), Hp, settle_idle; done.
  - exists 0. intros k _. rewrite (start_step (Throw e)), Hp, settle_idle; done.
  - rewrite (start_step (SetSession s k)). by apply (IH script (with_world _ sys)).
  - rewrite (start_step (SetUser u k)). by apply (IH script (with_world _ sys)).
  - rewrite (start_step (SetLoading b k)). by apply (IH script (with_world _ sys)).
  - rewrite (start_step (ConsoleLog args k)). by apply (IH script (with_world _ sys)).
  - rewrite (start_step (Await c k)), Hp. cbn [app run].
    rewrite answer_head.
    destruct (perform c (answer script 0) (profiles (world sys))) as [rows r] eqn:Hperf.
    destruct (IH r (tail script)
                (with_parked []
                   (with_world (set_profiles rows (log_request (Issued c) (world sys))) sys))
                eq_refl) as [n Hn].
    exists (S n). intros [| k'] Hk; [lia |].
    rewrite settle_lone_S. cbn. rewrite Hperf. cbn.
    apply Hn. lia.
Qed.

(** ** The event loop: the [loading] flag *)

Ltac solve_keeps :=
  unfold_async;
  repeat first
    [ done
    | progress (cbn; intros)
    | match goal with
      | |- context [truthy ?v] => destruct (truthy v)
      | |- context [match ?r with Fulfilled _ => _ | Rejected _ => _ end] =>
          destruct r
      | |- context [match data ?r with Some _ => _ | None => _ end] =>
          destruct (data r)
      end ].

Lemma callback_keeps_loading (s : option Session) :
  keeps_loading (onAuthStateChange_callback s).
Proof. destruct s as [s |]; solve_keeps. Qed.

Lemma action_keeps_loading (window : Window) (a : Action) :
  keeps_loading (action window a).
Proof. destruct a; solve_keeps. Qed.

Lemma advance_keeps_loading (p : Async unit) (w : World) :
  keeps_loading p ->
  loading (advance w p).1 = loading w /\
  Forall parked_keeps (option_list (advance w p).2).
Proof.
  revert w. induction p as [a | e | s k IH | u k IH | b k IH | args k IH | c k IH];
    intros w Hp; cbn in *; try done.
  - destruct (IH (set_session s w) Hp) as [IH1 IH2]. by rewrite IH1.
  - destruct (IH (set_user u w) Hp) as [IH1 IH2]. by rewrite IH1.
  - destruct (IH (log_console args w) Hp) as [IH1 IH2]. by rewrite IH1.
  - split; [done |]. by apply Forall_singleton.
Qed.

Lemma fetched_sets_loading (response : Response (option Session)) (w : World) :
  loading (advance w (getSession_then response)).1 = false /\
  Forall parked_keeps (option_list (advance w (getSession_then response)).2).
Proof.
  unfold_async. destruct (data response) as [s |]; cbn; [| done].
  destruct (truthy _); cbn; [| done].
  split; [done |]. apply Forall_singleton. intros r. solve_keeps.
Qed.

Lemma start_keeps_loading (p : Async unit) (sys : System) :
  keeps_loading p -> parked_ok sys ->
  loading (world (start p sys)) = loading (world sys) /\ parked_ok (start p sys).
Proof.
  intros Hp Hsys. unfold parked_ok. rewrite start_world, start_parked.
  destruct (advance_keeps_loading p (world sys) Hp) as [Hl Hk].
  split; [done |]. by apply Forall_app.
Qed.

Lemma notify_each_loading (s : option Session) (sys : System) (ls : list nat) :
  parked_ok sys ->
  let sys' := foldr (fun _ acc => start (onAuthStateChange_callback s) acc) sys ls in
  loading (world sys') = loading (world sys) /\ parked_ok sys'.
Proof.
  intros Hsys. induction ls as [| l ls [IH1 IH2]]; cbn [foldr]; [done |].
  destruct (start_keeps_loading (onAuthStateChange_callback s) _
              (callback_keeps_loading s) IH2) as [H1 H2].
  split; [congruence | done].
Qed.

Lemma step_loading (window : Window) (sys : System) (ev : Event) :
  parked_ok sys ->
  loading (world (step window sys ev))
  = (if resolves sys ev then false else loading (world sys)) /\
  parked_ok (step window sys ev).
Proof.
  intros Hsys. destruct ev as [| | s | r | a | i m]; cbn.
  - unfold mount. destruct (cleanup sys); done.
  - unfold unmount. destruct (cleanup sys); done.
  - by apply notify_each_loading.
  - unfold resolves. destruct r as [response | e], (fetching sys) as [| n]; try done.
    unfold parked_ok. rewrite start_world, start_parked. cbn.
    destruct (fetched_sets_loading response (world sys)) as [Hl Hk].
    split; [done |]. by apply Forall_app.
  - apply start_keeps_loading; [apply action_keeps_loading | done].
  - destruct (parked sys !! i) as [pk |] eqn:Hpk; [| done].
    destruct (perform (parked_call pk) m (profiles (world sys))) as [rows r].
    pose proof (Forall_lookup_1 _ _ _ _ Hsys Hpk) as Hk.
    destruct (start_keeps_loading (parked_k pk r)
                (with_parked (delete i (parked sys))
                   (with_world (set_profiles rows (world sys)) sys)) (Hk r))
      as [H1 H2]; [by apply Forall_delete |].
    split; [by rewrite H1 | done].
Qed.

Lemma steps_parked_ok (window : Window) (sys : System) (evs : list Event) :
  parked_ok sys -> parked_ok (steps window sys evs).
Proof.
  revert sys. induction evs as [| ev evs IH]; intros sys Hsys; [done |].
  cbn. apply IH. by apply step_loading.
Qed.

Lemma loading_after (window : Window) (sys : System) (evs : list Event) :
  parked_ok sys ->
  loading (world (steps window sys evs))
  = loading (world sys) && negb (resolved window sys evs).
Proof.
  revert sys. induction evs as [| ev evs IH]; intros sys Hsys; cbn.
  - by rewrite andb_true_r.
  - destruct (step_loading window sys ev Hsys) as [Hl Hk].
    unfold steps in IH. rewrite (IH _ Hk), Hl.
    destruct (resolves sys ev), (loading (world sys)); done.
Qed.

Lemma loading_falls_once (window : Window) (sys : System) (evs : list Event) :
  parked_ok sys ->
  falls (loading_history window sys evs)
  = (if loading (world sys) && resolved window sys evs then 1 else 0) /\
  rises (loading_history window sys evs) = 0.
Proof.
  revert sys. induction evs as [| ev evs IH]; intros sys Hsys.
  - cbn. destruct (loading (world sys)); done.
  - destruct (step_loading window sys ev Hsys) as [Hl Hk].
    destruct (IH _ Hk) as [IHf IHr].
    cbn [loading_history resolved falls rises].
    destruct evs as [| ev' evs];
      cbn [loading_history] in *; rewrite IHf, IHr, Hl;
      destruct (resolves sys ev), (loading (world sys)); cbn; done.
Qed.

(** The fetch the effect issues stays under way until a
    [SessionFetched] event settles it. *)
Lemma step_fetching_mono (window : Window) (sys : System) (ev : Event) :
  is_SessionFetched ev = false ->
  fetching sys <= fetching (step window sys ev).
Proof.
  intros Hev. destruct ev as [| | s | r | a | i m]; try done; cbn [step].
  - unfold mount. destruct (cleanup sys); cbn; lia.
  - unfold unmount. destruct (cleanup sys); cbn; lia.
  - destruct (notify_each_control s sys (listeners sys)) as (_ & _ & _ & ->). lia.
  - destruct (start_control (action window a) sys) as (_ & _ & _ & ->). lia.
  - destruct (parked sys !! i) as [pk |]; [| lia].
    destruct (perform (parked_call pk) m (profiles (world sys))) as [rows r].
    match goal with
    | |- context [start ?p ?sys0] =>
        destruct (start_control p sys0) as (_ & _ & _ & ->)
    end.
    cbn. lia.
Qed.

Lemma steps_fetching_mono (window : Window) (sys : System) (evs : list Event) :
  existsb is_SessionFetched evs = false ->
  fetching sys <= fetching (steps window sys evs).
Proof.
  revert sys. induction evs as [| ev evs IH]; intros sys Hevs; [done |].
  cbn in Hevs. apply orb_false_iff in Hevs as [Hev Hevs].
  cbn. etrans; [by apply (step_fetching_mono window sys ev) | by apply IH].
Qed.

Lemma resolved_unfetched (window : Window) (sys : System) (evs : list Event) :
  existsb is_SessionFetched evs = false -> resolved window sys evs = false.
Proof.
  revert sys. induction evs as [| ev evs IH]; intros sys Hevs; [done |].
  cbn in Hevs. apply orb_false_iff in Hevs as [Hev Hevs].
  cbn. rewrite IH by done. by destruct ev.
Qed.

Lemma resolved_app (window : Window) (sys : System) (evs evs' : list Event) :
  resolved window sys (evs ++ evs')
  = resolved window sys evs || resolved window (steps window sys evs) evs'.
Proof.
  revert sys. induction evs as [| ev evs IH]; intros sys; [done |].
  cbn. by rewrite IH, orb_assoc.
Qed.

(** After the mount, and as long as no event settles the fetch, a
    fulfilment of the fetch resolves it. *)
Lemma mounted_fetch_resolves (window : Window) (rows : list Row)
    (before after : list Event) (r : Response (option Session)) :
  existsb is_SessionFetched before = false ->
  resolved window (initial rows) (Mount :: before) = false /\
  resolved window (initial rows)
    (Mount :: before ++ SessionFetched (Fulfilled r) :: after) = true.
Proof.
  intros Hbefore. cbn [resolved resolves orb].
  split; [by apply resolved_unfetched |].
  rewrite resolved_app, (resolved_unfetched _ _ _ Hbefore). cbn [orb resolved].
  pose proof (steps_fetching_mono window (step window (initial rows) Mount)
                before Hbefore) as Hpending.
  unfold resolves.
  destruct (fetching (steps window (step window (initial rows) Mount) before));
    [cbn in Hpending; lia | done].
Qed.

(** C5: [loading] starts true; after any history of events it is false
    exactly when one of them was the fulfilment of a session fetch under
    way, so along the history it falls once, at the first such event,
    and never rises; a notification never changes it.  The mount puts
    such a fetch under way: whatever notifications, calls and answers
    come between, [loading] is still true before the fetch settles and
    false once it is fulfilled, and over the whole history it falls
    exactly once. *)
Theorem loading_falls_at_first_fetch (window : Window) (rows : list Row)
    (evs : list Event) :
  let sys := initial rows in
  loading (world sys) = true /\
  loading (world (steps window sys evs)) = negb (resolved window sys evs) /\
  falls (loading_history window sys evs)
  = (if resolved window sys evs then 1 else 0) /\
  rises (loading_history window sys evs) = 0 /\
  (forall s, loading (world (steps window sys (evs ++ [AuthStateChange s])))
             = loading (world (steps window sys evs))) /\
  fetching (step window sys Mount) = 1 /\
  forall (before after : list Event) (r : Response (option Session)),
    existsb is_SessionFetched before = false ->
    loading (world (steps window sys (Mount :: before))) = true /\
    loading (world (steps window sys
                      (Mount :: before ++ [SessionFetched (Fulfilled r)]))) = false /\
    falls (loading_history window sys
             (Mount :: before ++ SessionFetched (Fulfilled r) :: after)) = 1 /\
    rises (loading_history window sys
             (Mount :: before ++ SessionFetched (Fulfilled r) :: after)) = 0.
Proof.
  intros sys. subst sys.
  set (sys := initial rows).
  assert (parked_ok sys) as Hsys by apply Forall_nil_2.
  split; [done |]. split; [by rewrite loading_after |].
  destruct (loading_falls_once window sys evs Hsys) as [Hf Hr].
  split; [done |]. split; [done |].
  split.
  { intros s. rewrite steps_snoc.
    by destruct (step_loading window (steps window sys evs) (AuthStateChange s)
                   (steps_parked_ok window sys evs Hsys)) as [-> _]. }
  split; [reflexivity |].
  intros before after r Hbefore.
  destruct (mounted_fetch_resolves window rows before [] r Hbefore) as [Hno Hyes].
  destruct (mounted_fetch_resolves window rows before after r Hbefore) as [_ Hall].
  fold sys in Hno, Hyes, Hall.
  split; [by rewrite loading_after, Hno by done |].
  split; [by rewrite loading_after, Hyes by done |].
  destruct (loading_falls_once window sys
              (Mount :: before ++ SessionFetched (Fulfilled r) :: after) Hsys)
    as [Hf' Hr'].
  rewrite Hall in Hf'. done.
Qed.

Lemma loading_falls_at_first_fetch_witness :
  let window := mkWindow "https://app" in
  let sys := initial [row_unlinked] in
  let before := [AuthStateChange (Some alice_session); Settle 0 Succeed;
                 Invoke (call_signIn "alice@example.com" "secret")] in
  let fetched := SessionFetched (Fulfilled (mkResponse (Some alice_session) None)) in
  existsb is_SessionFetched before = false /\
  loading (world (steps window sys (Mount :: before))) = true /\
  loading (world (steps window sys (Mount :: before ++ [fetched]))) = false /\
  falls (loading_history window sys
           (Mount :: before ++ fetched :: [AuthStateChange None; Unmount])) = 1.
Proof.
  intros window sys before fetched.
  destruct (loading_falls_at_first_fetch window [row_unlinked] [])
    as (_ & _ & _ & _ & _ & _ & Hmounted).
  destruct (Hmounted before [AuthStateChange None; Unmount]
              (mkResponse (Some alice_session) None) eq_refl)
    as (Htrue & Hfalse & Hfalls & _).
  split; [reflexivity |]. split; [exact Htrue |]. split; [exact Hfalse | exact Hfalls].
Defined.

Example loading_history_run :
  loading_history (mkWindow "https://app") (initial [row_unlinked])
    [Mount; AuthStateChange (Some alice_session);
     SessionFetched (Fulfilled (mkResponse (Some alice_session) None));
     Settle 0 Succeed; AuthStateChange None; Invoke call_signOut]
  = [true; true; true; false; false; false; false].
Proof. reflexivity. Qed.

(** ** The event loop: the subscription *)

Lemma releases_app (n : nat) (log added : list Request) :
  releases n (log ++ added) = releases n log + releases n added.
Proof. unfold releases. by rewrite filter_app, length_app. Qed.

Lemma releases_cons (n : nat) (r : Request) (log : list Request) :
  releases n (r :: log) = (if is_unsubscribe n r then 1 else 0) + releases n log.
Proof.
  unfold releases. rewrite filter_cons.
  destruct (is_unsubscribe n r); case_decide; naive_solver.
Qed.

Lemma releases_nil (n : nat) : releases n [] = 0.
Proof. reflexivity. Qed.

Lemma advance_releases (n : nat) (p : Async unit) (w : World) :
  releases n (requests (advance w p).1) = releases n (requests w).
Proof.
  revert w. induction p as [a | e | s k IH | u k IH | b k IH | args k IH | c k IH];
    intros w; cbn [advance]; try done; try (by rewrite IH).
  unfold log_request. cbn [fst requests].
  rewrite releases_app, releases_cons, releases_nil. cbn. lia.
Qed.

Lemma start_releases (n : nat) (p : Async unit) (sys : System) :
  releases n (requests (world (start p sys))) = releases n (requests (world sys)).
Proof. rewrite start_world. apply advance_releases. Qed.

Lemma notify_each_releases (n : nat) (s : option Session) (sys : System)
    (ls : list nat) :
  releases n (requests (world
    (foldr (fun _ acc => start (onAuthStateChange_callback s) acc) sys ls)))
  = releases n (requests (world sys)).
Proof.
  induction ls as [| l ls IH]; cbn [foldr]; [done |]. by rewrite start_releases.
Qed.

(** Events other than the mount and the unmount leave the subscription
    alone. *)
Lemma step_keeps_subscription (window : Window) (sys : System) (ev : Event) :
  ev <> Mount -> ev <> Unmount ->
  let sys' := step window sys ev in
  listeners sys' = listeners sys /\
  next_subscription sys' = next_subscription sys /\
  cleanup sys' = cleanup sys /\
  forall n, releases n (requests (world sys')) = releases n (requests (world sys)).
Proof.
  intros Hm Hu sys'. subst sys'.
  destruct ev as [| | s | r | a | i m]; try done; cbn [step].
  - destruct (notify_each_control s sys (listeners sys)) as (-> & -> & -> & _).
    repeat split. intros n. apply notify_each_releases.
  - destruct (fetching sys) as [| f]; [done |].
    destruct r as [response | e]; [| done].
    destruct (start_control (getSession_then response) (with_fetching f sys))
      as (-> & -> & -> & _).
    repeat split. intros n. by rewrite start_releases.
  - destruct (start_control (action window a) sys) as (-> & -> & -> & _).
    repeat split. intros n. by rewrite start_releases.
  - destruct (parked sys !! i) as [pk |]; [| done].
    destruct (perform (parked_call pk) m (profiles (world sys))) as [rows r].
    match goal with
    | |- context [start ?p ?sys0] =>
        destruct (start_control p sys0) as (-> & -> & -> & _)
    end.
    repeat split. intros n. by rewrite start_releases.
Qed.

Lemma mount_requests (sys : System) :
  cleanup sys = None ->
  requests (world (mount sys))
  = requests (world sys) ++
      [auth_onAuthStateChange (next_subscription sys); auth_getSession] /\
  listeners (mount sys) = listeners sys ++ [next_subscription sys] /\
  next_subscription (mount sys) = S (next_subscription sys) /\
  cleanup (mount sys) = Some (next_subscription sys).
Proof.
  intros Hc. unfold mount. rewrite Hc. cbn. by rewrite <- app_assoc.
Qed.

Lemma unmount_requests (sys : System) (n : nat) :
  cleanup sys = Some n ->
  requests (world (unmount sys))
  = requests (world sys) ++ [subscription_unsubscribe n] /\
  listeners (unmount sys) = filter (fun l => l <> n) (listeners sys) /\
  next_subscription (unmount sys) = next_subscription sys /\
  cleanup (unmount sys) = None.
Proof. intros Hc. unfold unmount. rewrite Hc. done. Qed.

Lemma releases_unsubscribe (n m : nat) :
  releases n [subscription_unsubscribe m] = if bool_decide (m = n) then 1 else 0.
Proof.
  rewrite releases_cons, releases_nil. cbn.
  destruct (Nat.eqb_spec m n); case_bool_decide; done.
Qed.

Lemma count_decide_ext (P Q : Prop) `{Decision P, Decision Q} :
  (P <-> Q) ->
  (if bool_decide P then 1 else 0) = (if bool_decide Q then 1 else 0).
Proof. intros HPQ. repeat case_bool_decide; tauto. Qed.

Lemma step_subscriptions_ok (window : Window) (sys : System) (ev : Event) :
  subscriptions_ok sys -> subscriptions_ok (step window sys ev).
Proof.
  intros (Hlt & Hls & Hrel).
  assert (ev <> Mount -> ev <> Unmount -> subscriptions_ok (step window sys ev))
    as Hother.
  { intros Hm Hu.
    destruct (step_keeps_subscription window sys ev Hm Hu) as (Hl' & Hn' & Hc' & Hr').
    unfold subscriptions_ok. rewrite Hl', Hn', Hc'.
    split; [done |]. split; [done |]. intros n. by rewrite Hr'. }
  destruct ev as [| | s | r | a | i m]; try (by apply Hother).
  - cbn. destruct (cleanup sys) as [c |] eqn:Hc.
    { unfold mount. rewrite Hc. unfold subscriptions_ok. by rewrite Hc. }
    destruct (mount_requests sys Hc) as (Hr' & Hl' & Hn' & Hc').
    unfold subscriptions_ok. rewrite Hr', Hl', Hn', Hc', Hls.
    split; [intros n [= <-]; lia |]. split; [done |].
    intros n. rewrite releases_app, !releases_cons, releases_nil, Hrel. cbn.
    rewrite Nat.add_0_r. apply count_decide_ext.
    split.
    + intros [Hn _]. split; [lia |]. intros [= Heq]. lia.
    + intros [Hn Hne]. split; [| done].
      assert (n <> next_subscription sys) by congruence. lia.
  - cbn. destruct (cleanup sys) as [c |] eqn:Hc.
    2: { unfold unmount. rewrite Hc. unfold subscriptions_ok. by rewrite Hc. }
    destruct (unmount_requests sys c Hc) as (Hr' & Hl' & Hn' & Hc').
    unfold subscriptions_ok. rewrite Hr', Hl', Hn', Hc', Hls.
    split; [done |]. split.
    { change (option_list (Some c)) with [c].
      rewrite filter_cons, filter_nil. by case_decide. }
    intros n. rewrite releases_app, Hrel, releases_unsubscribe.
    specialize (Hlt c eq_refl).
    destruct (decide (c = n)) as [-> | Hcn].
    + rewrite bool_decide_false by (intros [_ Hne]; congruence).
      rewrite (bool_decide_true (n = n)) by done.
      rewrite bool_decide_true by done. done.
    + rewrite (bool_decide_false (c = n)) by done.
      rewrite Nat.add_0_r. apply count_decide_ext.
      split; intros [Hn Hne]; (split; [done | congruence]).
Qed.

Lemma steps_subscriptions_ok (window : Window) (sys : System) (evs : list Event) :
  subscriptions_ok sys -> subscriptions_ok (steps window sys evs).
Proof.
  revert sys. induction evs as [| ev evs IH]; intros sys Hsys; [done |].
  cbn. apply IH. by apply step_subscriptions_ok.
Qed.

Lemma initial_subscriptions_ok (rows : list Row) : subscriptions_ok (initial rows).
Proof.
  split; [done |]. split; [done |]. intros n. cbn.
  rewrite bool_decide_false; [done | lia].
Qed.

(** The log only grows, and the subscription counter with it. *)
Lemma step_releases_mono (window : Window) (sys : System) (ev : Event) (n : nat) :
  releases n (requests (world sys)) <= releases n (requests (world (step window sys ev))).
Proof.
  assert (ev <> Mount -> ev <> Unmount ->
          releases n (requests (world sys))
          <= releases n (requests (world (step window sys ev)))) as Hother.
  { intros Hm Hu.
    destruct (step_keeps_subscription window sys ev Hm Hu) as (_ & _ & _ & Hr').
    by rewrite Hr'. }
  destruct ev as [| | s | r | a | i m]; try (by apply Hother).
  - cbn. destruct (cleanup sys) as [c |] eqn:Hc.
    { unfold mount. by rewrite Hc. }
    destruct (mount_requests sys Hc) as (-> & _). rewrite releases_app. lia.
  - cbn. destruct (cleanup sys) as [c |] eqn:Hc.
    2: { unfold unmount. by rewrite Hc. }
    destruct (unmount_requests sys c Hc) as (-> & _). rewrite releases_app. lia.
Qed.

Lemma steps_releases_mono (window : Window) (sys : System) (evs : list Event)
    (n : nat) :
  releases n (requests (world sys)) <= releases n (requests (world (steps window sys evs))).
Proof.
  revert sys. induction evs as [| ev evs IH]; intros sys; [done |].
  cbn. etrans; [apply (step_releases_mono window sys ev) | apply IH].
Qed.

(** C8: in any reachable state, running the effect registers the
    listener first and issues the session fetch second; and when the
    effect is torn down its subscription, released at no earlier point,
    is released by the cleanup, after which the client notifies nobody
    and no later event releases it again. *)
Theorem subscription_lifecycle (window : Window) (rows : list Row)
    (evs : list Event) :
  let sys := steps window (initial rows) evs in
  (cleanup sys = None ->
   let up := step window sys Mount in
   requests (world up)
   = requests (world sys) ++
       [auth_onAuthStateChange (next_subscription sys); auth_getSession] /\
   listeners up = [next_subscription sys] /\
   cleanup up = Some (next_subscription sys)) /\
  (forall n, cleanup sys = Some n ->
   releases n (requests (world sys)) = 0 /\
   listeners sys = [n] /\
   let down := step window sys Unmount in
   requests (world down)
   = requests (world sys) ++ [subscription_unsubscribe n] /\
   listeners down = [] /\
   cleanup down = None /\
   forall evs', releases n (requests (world (steps window down evs'))) = 1).
Proof.
  intros sys.
  assert (subscriptions_ok sys) as Hok
    by apply steps_subscriptions_ok, initial_subscriptions_ok.
  split.
  - intros Hc up. destruct (mount_requests sys Hc) as (Hr & Hl & _ & Hc').
    destruct Hok as (_ & Hls & _). rewrite Hc in Hls.
    subst up. cbn [step]. rewrite Hr, Hl, Hls, Hc'. done.
  - intros n Hc.
    pose proof (step_subscriptions_ok window sys Unmount Hok) as Hdown.
    destruct Hok as (Hlt & Hls & Hrel).
    split; [| split].
    + rewrite Hrel, bool_decide_false; [done | tauto].
    + by rewrite Hls, Hc.
    + intros down. destruct (unmount_requests sys n Hc) as (Hr & Hl & Hn & Hc').
      subst down. cbn [step] in *.
      split; [done |]. split.
      { destruct Hdown as (_ & -> & _). by rewrite Hc'. }
      split; [done |]. intros evs'.
      assert (releases n (requests (world (unmount sys))) = 1) as Hone.
      { destruct Hdown as (_ & _ & ->). rewrite Hn, Hc'.
        rewrite bool_decide_true; [done |]. split; [by apply Hlt | done]. }
      pose proof (steps_releases_mono window (unmount sys) evs' n) as Hmono.
      destruct (steps_subscriptions_ok window (unmount sys) evs' Hdown)
        as (_ & _ & Hrel').
      specialize (Hrel' n). revert Hrel' Hmono. rewrite Hone.
      case_bool_decide; lia.
Qed.

Lemma subscription_lifecycle_witness :
  let window := mkWindow "https://app" in
  (let up := step window (initial []) Mount in
   requests (world up) = [auth_onAuthStateChange 0; auth_getSession] /\
   listeners up = [0] /\ cleanup up = Some 0) /\
  (let sys := steps window (initial []) [Mount; AuthStateChange (Some alice_session)] in
   cleanup sys = Some 0 /\
   releases 0 (requests (world sys)) = 0 /\
   releases 0 (requests (world
     (steps window (step window sys Unmount) [Unmount; Mount; Unmount]))) = 1).
Proof.
  intros window. split.
  - destruct (subscription_lifecycle window [] []) as [Hup _].
    apply Hup. reflexivity.
  - intros sys.
    destruct (subscription_lifecycle window []
                [Mount; AuthStateChange (Some alice_session)]) as [_ Hdown].
    destruct (Hdown 0 eq_refl) as (H0 & _ & _ & _ & _ & H1).
    split; [reflexivity |]. split; [exact H0 | exact (H1 [Unmount; Mount; Unmount])].
Defined.

(** ** The pass-through actions *)

(** X1: [signIn] sends one request, [auth.signInWithPassword] with the
    email and password it was given, and changes nothing else; it
    returns the error of the response, null on success, and throws only
    when the promise rejects. *)
Theorem signIn_passes_through (email password : string) (script : list Mode)
    (w : World) :
  run script w (signIn email password)
  = (log_request (Issued (auth_signInWithPassword email password)) w,
     action_completion script).
Proof.
  unfold action_completion. rewrite <- answer_head. unfold_async.
  next_mode; destruct w; reflexivity.
Qed.

(** X2: [signInWithDiscord] sends one request, [auth.signInWithOAuth]
    for the provider "discord" with [redirectTo] the origin followed by
    a slash, and changes nothing else; it returns the error of the
    response and throws only when the promise rejects. *)
Theorem signInWithDiscord_passes_through (window : Window) (script : list Mode)
    (w : World) :
  run script w (signInWithDiscord window)
  = (log_request
       (Issued (auth_signInWithOAuth "discord"
                  (String.append (location_origin window) "/"))) w,
     action_completion script).
Proof.
  unfold action_completion. rewrite <- answer_head. unfold_async.
  next_mode; destruct w; reflexivity.
Qed.

(** X3: [resetPassword] sends one request, [auth.resetPasswordForEmail]
    for the email it was given with [redirectTo] the origin followed by
    "/auth", and changes nothing else; it returns the error of the
    response and throws only when the promise rejects. *)
Theorem resetPassword_passes_through (window : Window) (email : string)
    (script : list Mode) (w : World) :
  run script w (resetPassword window email)
  = (log_request
       (Issued (auth_resetPasswordForEmail email
                  (String.append (location_origin window) "/auth"))) w,
     action_completion script).
Proof.
  unfold action_completion. rewrite <- answer_head. unfold_async.
  next_mode; destruct w; reflexivity.
Qed.

(** X4: [signUp] changes neither [user], [session], [loading], the
    profile table nor the console, and hands its caller the error of the
    response, null on success; it throws only when the promise
    rejects. *)
Theorem signUp_returns_error (window : Window) (email password hunterName : string)
    (script : list Mode) (w : World) :
  let '(w', completion) := run script w (signUp window email password hunterName) in
  user w' = user w /\ session w' = session w /\ loading w' = loading w /\
  profiles w' = profiles w /\ console w' = console w /\
  completion = action_completion script.
Proof.
  unfold action_completion. rewrite <- answer_head. unfold_async.
  next_mode; done.
Qed.

(** X5: [signOut] sends one request, [auth.signOut], whatever the
    answer, and never changes [loading], the profile table or the
    console. *)
Theorem signOut_request (script : list Mode) (w : World) :
  let w' := (run script w signOut).1 in
  requests w' = requests w ++ [Issued auth_signOut] /\
  loading w' = loading w /\ profiles w' = profiles w /\ console w' = console w.
Proof. unfold_async. next_mode; done. Qed.

(** ** The handlers: state, quiet runs and repeated runs *)

Ltac handler_cases :=
  unfold after_fetch, after_notification; unfold_async;
  repeat first
    [ done
    | next_mode
    | match goal with
      | |- context [match ?s with Some _ => _ | None => _ end] =>
          destruct s; cbn
      | |- context [truthy ?v] => destruct (truthy v); cbn
      end ].

(** X6: however the profile store answers, the handler of the fetch
    ends with [session] equal to the fetched session, [user] equal to its
    user, null when there is none, and [loading] false. *)
Theorem fetch_sets_state (script : list Mode) (w : World)
    (response : Response (option Session)) :
  let w' := after_fetch script w response in
  user w' = session_user <$> data response /\
  session w' = data response /\
  loading w' = false.
Proof. destruct response as [[s |] e]; handler_cases. Qed.

(** X7: however the profile store answers, failing or rejecting
    included, the handler of a notification ends with [session] equal to
    the notified session and [user] equal to its user; it never changes
    [loading] and never writes to the console. *)
Theorem notification_state_ignores_store (script : list Mode) (w : World)
    (s : option Session) :
  let w' := after_notification script w s in
  user w' = session_user <$> s /\
  session w' = s /\
  loading w' = loading w /\
  console w' = console w.
Proof. destruct s as [s |]; handler_cases. Qed.

(** X8: a null session, a user without [user_metadata] and a metadata
    object without the key [provider_id] all keep both handlers from
    sending any request; the table is left as it was. *)
Theorem sync_needs_session_and_id (script : list Mode) (w : World)
    (e : option Error) :
  let quiet w' := requests w' = requests w /\ profiles w' = profiles w in
  quiet (after_notification script w None) /\
  quiet (after_fetch script w (mkResponse None e)) /\
  forall s,
    (user_metadata (session_user s) = None \/
     exists m, user_metadata (session_user s) = Some m /\
               m !! "provider_id" = None) ->
    quiet (after_notification script w (Some s)) /\
    quiet (after_fetch script w (mkResponse (Some s) e)).
Proof.
  intros quiet. unfold quiet. split; [done |]. split; [done |].
  intros s Hs.
  assert (truthy (provider_id_of s) = false) as Hpid.
  { unfold provider_id_of, opt_prop, get_prop.
    destruct Hs as [-> | (m & -> & Hm)]; [done |]. cbn. by rewrite Hm. }
  split.
  - destruct (notification_outcome script w s) as [? ? ? | ? ? ? ? | ? ? ? ? ? ? ?];
      [done | congruence | congruence].
  - destruct (fetch_outcome script w s e) as [? ? ? | ? ? ? ? | ? ? ? ? ? ? ?];
      [done | congruence | congruence].
Qed.

Lemma sync_needs_session_and_id_witness :
  let w := store [row_unlinked] in
  let w' := after_notification [] w (Some (mkSession "t" dave)) in
  requests w' = [] /\ profiles w' = [row_unlinked].
Proof.
  intros w w'.
  destruct (sync_needs_session_and_id [] w None) as (_ & _ & Hquiet).
  destruct (Hquiet (mkSession "t" dave)) as [Hn _]; [by left |]. exact Hn.
Defined.

Lemma outcome_not_updated (script : list Mode) (w : World) (s : Session)
    (w' : World) :
  sync_outcome script w s w' ->
  (forall row, truthy (provider_id_of s) = true ->
               answer script 0 = Succeed ->
               rows_of (id (session_user s)) (profiles w) = [row] ->
               truthy (get_prop row "discord_id") = false -> False) ->
  profiles w' = profiles w /\
  requests w' = requests w ++
    (if truthy (provider_id_of s)
     then [select_request (id (session_user s))] else []).
Proof.
  intros [Hpid Hr Hp | Hpid _ Hr Hp | row Hpid Hsel Hrows Hd _ _] Hnot.
  - rewrite Hpid, app_nil_r. done.
  - rewrite Hpid. done.
  - destruct (Hnot row Hpid Hsel Hrows Hd).
Qed.

(** X9: when the table holds two or more rows for the user's id the
    lookup with [.single()] yields no profile, and neither handler
    updates anything, even if every one of those rows lacks a
    [discord_id]. *)
Theorem sync_skips_duplicate_rows (script : list Mode) (w : World) (s : Session)
    (e : option Error) :
  2 <= length (rows_of (id (session_user s)) (profiles w)) ->
  let kept w' :=
    profiles w' = profiles w /\
    requests w' = requests w ++
      (if truthy (provider_id_of s)
       then [select_request (id (session_user s))] else []) in
  kept (after_notification script w (Some s)) /\
  kept (after_fetch script w (mkResponse (Some s) e)).
Proof.
  intros Hdup kept. unfold kept.
  split; (eapply outcome_not_updated;
          [first [apply notification_outcome | apply fetch_outcome] |]);
    intros row _ _ Hrows _; rewrite Hrows in Hdup; cbn in Hdup; lia.
Qed.

Lemma sync_skips_duplicate_rows_witness :
  let w := store [row_unlinked; row_blank] in
  let w' := after_notification [] w (Some alice_session) in
  length (rows_of "u-1" (profiles w)) = 2 /\
  profiles w' = profiles w /\
  requests w' = [select_request "u-1"].
Proof.
  intros w w'. split; [reflexivity |].
  destruct (sync_skips_duplicate_rows [] w alice_session None) as [Hn _].
  - vm_compute. lia.
  - exact Hn.
Defined.

(** X10: when the lookup is refused with an error or its promise
    rejects, neither handler goes on to the update: the table is left as
    it was and the lookup is the only request sent. *)
Theorem sync_stops_at_failed_lookup (script : list Mode) (w : World) (s : Session)
    (e : option Error) :
  answer script 0 <> Succeed ->
  let kept w' :=
    profiles w' = profiles w /\
    requests w' = requests w ++
      (if truthy (provider_id_of s)
       then [select_request (id (session_user s))] else []) in
  kept (after_notification script w (Some s)) /\
  kept (after_fetch script w (mkResponse (Some s) e)).
Proof.
  intros Hfail kept. unfold kept.
  split; (eapply outcome_not_updated;
          [first [apply notification_outcome | apply fetch_outcome] |]);
    intros row _ Hsel _ _; done.
Qed.

Lemma sync_stops_at_failed_lookup_witness :
  let w := store [row_unlinked] in
  let script := [Fail (mkError "permission denied")] in
  let w' := after_notification script w (Some alice_session) in
  answer script 0 <> Succeed /\
  profiles w' = [row_unlinked] /\
  requests w' = [select_request "u-1"].
Proof.
  intros w script w'.
  assert (answer script 0 <> Succeed) as Hfail by discriminate.
  split; [exact Hfail |].
  destruct (sync_stops_at_failed_lookup script w alice_session None Hfail) as [Hn _].
  exact Hn.
Defined.

Lemma outcome_settled (script1 script2 : list Mode) (w w1 w2 : World) (s : Session) :
  answer script1 0 = Succeed ->
  answer script1 1 = Succeed ->
  sync_outcome script1 w s w1 ->
  sync_outcome script2 w1 s w2 ->
  profiles w2 = profiles w1 /\
  requests w2 = requests w1 ++
    (if truthy (provider_id_of s)
     then [select_request (id (session_user s))] else []).
Proof.
  intros Hsel Hupd H1 H2.
  eapply outcome_not_updated; [exact H2 |].
  intros row' Hpid' _ Hrows' Hd'.
  destruct H1 as [Hpid _ _ | Hpid Hno _ Hp | row Hpid _ Hrows _ _ Hp].
  - congruence.
  - destruct Hno as [Hno | Hno]; [done |].
    rewrite Hp in Hrows'. specialize (Hno _ Hrows'). congruence.
  - rewrite Hp, Hupd, rows_of_update, Hrows in Hrows'. cbn in Hrows'.
    assert (get_prop row' "discord_id" = provider_id_of s) as Hget.
    { simplify_eq. unfold get_prop. by rewrite lookup_insert_eq. }
    congruence.
Qed.

(** X11: the sync is idempotent.  After a run of either handler whose
    lookup and update were both carried out, a further run of either
    handler for the same session, however it is answered, sends at most
    the lookup and leaves the table as the first run left it. *)
Theorem sync_idempotent (script1 : list Mode) (w : World) (s : Session)
    (e : option Error) :
  answer script1 0 = Succeed ->
  answer script1 1 = Succeed ->
  let settled w1 :=
    forall script2 e2,
      let same w2 :=
        profiles w2 = profiles w1 /\
        requests w2 = requests w1 ++
          (if truthy (provider_id_of s)
           then [select_request (id (session_user s))] else []) in
      same (after_notification script2 w1 (Some s)) /\
      same (after_fetch script2 w1 (mkResponse (Some s) e2)) in
  settled (after_notification script1 w (Some s)) /\
  settled (after_fetch script1 w (mkResponse (Some s) e)).
Proof.
  intros Hsel Hupd settled. unfold settled. cbv beta.
  split; intros script2 e2; split;
    eapply (outcome_settled script1 script2 w); try done;
    first [apply notification_outcome | apply fetch_outcome].
Qed.

Lemma sync_idempotent_witness :
  let w := store [row_unlinked; row_bob] in
  let w1 := after_notification [] w (Some alice_session) in
  let w2 := after_fetch [] w1 (mkResponse (Some alice_session) None) in
  profiles w1 = [<[ "discord_id" := JStr "Y" ]> row_unlinked; row_bob] /\
  profiles w2 = profiles w1 /\
  requests w2 = requests w1 ++ [select_request "u-1"].
Proof.
  intros w w1 w2. split; [reflexivity |].
  destruct (sync_idempotent [] w alice_session None eq_refl eq_refl) as [Hn _].
  destruct (Hn [] None) as [_ Hf]. exact Hf.
Defined.

(** X12: the two handlers treat the store alike.  For the same session
    and the same answers of the backend, the handler of the fetch and the
    handler of a notification leave the same table, the same request log,
    the same [user] and the same [session]. *)
Theorem handlers_agree (script : list Mode) (w : World)
    (response : Response (option Session)) :
  let by_fetch := after_fetch script w response in
  let by_notification := after_notification script w (data response) in
  profiles by_fetch = profiles by_notification /\
  requests by_fetch = requests by_notification /\
  user by_fetch = user by_notification /\
  session by_fetch = session by_notification.
Proof.
  intros by_fetch by_notification.
  destruct (fetch_as_notification script w response) as [Hp Hr].
  split; [done |]. split; [done |].
  subst by_fetch by_notification.
  destruct response as [[s |] e]; handler_cases.
Qed.

(** X13: the handler of the fetch writes its line "Discord ID linked"
    whenever the promise of the update is fulfilled, also when the
    response reports an error and no row was changed; it writes nothing
    when that promise rejects. *)
Theorem fetch_logs_after_update (script : list Mode) (w : World) (s : Session)
    (e : option Error) (row : Row) :
  rows_of (id (session_user s)) (profiles w) = [row] ->
  truthy (get_prop row "discord_id") = false ->
  truthy (provider_id_of s) = true ->
  answer script 0 = Succeed ->
  let w' := after_fetch script w (mkResponse (Some s) e) in
  console w' = console w ++
    match answer script 1 with
    | Reject _ => []
    | _ => [linked_line (provider_id_of s)]
    end /\
  (forall err, answer script 1 = Fail err -> profiles w' = profiles w).
Proof.
  intros Hrows Hd Hpid Hsel w'. subst w'.
  unfold after_fetch. unfold_async. fold (provider_id_of s).
  rewrite Hpid. cbn. rewrite answer_head, Hsel. cbn.
  fold (rows_of (id (session_user s)) (profiles w)). rewrite Hrows. cbn.
  rewrite get_prop_select_column, Hd. cbn.
  rewrite answer_head, answer_tail.
  destruct (answer script 1) as [| err | err]; cbn;
    (split; [by rewrite ?app_nil_r | intros err' Herr; by simplify_eq]).
Qed.

Lemma fetch_logs_after_update_witness :
  let w := store [row_unlinked] in
  let script := [Succeed; Fail (mkError "row-level security")] in
  let w' := after_fetch script w (mkResponse (Some alice_session) None) in
  console w' = [linked_line (JStr "Y")] /\ profiles w' = [row_unlinked].
Proof.
  intros w script w'.
  destruct (fetch_logs_after_update script w alice_session None row_unlinked)
    as [Hc Hp]; try reflexivity.
  split; [exact Hc | exact (Hp _ eq_refl)].
Defined.

(** ** The event loop: notifications without a subscription *)

(** X14: while the effect is not mounted, before the first mount or
    after a cleanup, a change notification reaches no handler: the whole
    system, state and store included, stays as it is. *)
Theorem notification_ignored_when_unsubscribed (window : Window) (rows : list Row)
    (evs : list Event) (s : option Session) :
  cleanup (steps window (initial rows) evs) = None ->
  step window (steps window (initial rows) evs) (AuthStateChange s)
  = steps window (initial rows) evs.
Proof.
  intros Hc.
  destruct (steps_subscriptions_ok window (initial rows) evs
              (initial_subscriptions_ok rows)) as (_ & Hls & _).
  cbn [step]. rewrite Hls, Hc. reflexivity.
Qed.

Lemma notification_ignored_when_unsubscribed_witness :
  let window := mkWindow "https://app" in
  let evs := [Mount; AuthStateChange None; Unmount] in
  cleanup (steps window (initial [row_unlinked]) evs) = None /\
  user (world (steps window (initial [row_unlinked])
                 (evs ++ [AuthStateChange (Some alice_session)]))) = None.
Proof.
  intros window evs. split; [reflexivity |].
  rewrite steps_snoc.
  rewrite (notification_ignored_when_unsubscribed window [row_unlinked] evs
             (Some alice_session) eq_refl).
  reflexivity.
Defined.

(** X15: in every reachable state the client holds at most one
    subscription of the provider, so a change notification starts the
    handler at most once and parks at most one more function. *)
Theorem one_listener_at_most (window : Window) (rows : list Row)
    (evs : list Event) (s : option Session) :
  let sys := steps window (initial rows) evs in
  length (listeners sys) <= 1 /\
  length (parked (step window sys (AuthStateChange s))) <= S (length (parked sys)).
Proof.
  intros sys.
  destruct (steps_subscriptions_ok window (initial rows) evs
              (initial_subscriptions_ok rows)) as (_ & Hls & _).
  fold sys in Hls. cbn [step]. rewrite Hls.
  destruct (cleanup sys) as [n |]; (split; [cbn; lia |]).
  2: { change (option_list None) with (@nil nat). cbn [foldr]. lia. }
  change (option_list (Some n)) with [n]. cbn [foldr].
  rewrite start_parked, length_app.
  destruct (advance (world sys) (onAuthStateChange_callback s)).2; cbn; lia.
Qed.

(** ** The event loop: the sync and the React state *)

Ltac solve_quiet :=
  unfold_async;
  repeat first
    [ done
    | progress (cbn; intros)
    | match goal with
      | |- context [truthy ?v] => destruct (truthy v)
      | |- context [match ?r with Fulfilled _ => _ | Rejected _ => _ end] =>
          destruct r
      | |- context [match data ?r with Some _ => _ | None => _ end] =>
          destruct (data r)
      end ].

Lemma advance_keeps_state (p : Async unit) (w : World) :
  keeps_state p ->
  user (advance w p).1 = user w /\
  session (advance w p).1 = session w /\
  loading (advance w p).1 = loading w /\
  Forall parked_quiet (option_list (advance w p).2).
Proof.
  revert w. induction p as [a | e | s k IH | u k IH | b k IH | args k IH | c k IH];
    intros w Hp; cbn in *; try done.
  - destruct (IH (log_console args w) Hp) as (-> & -> & -> & ?). done.
  - repeat split. by apply Forall_singleton.
Qed.

Lemma callback_parks_quiet (s : option Session) (w : World) :
  Forall parked_quiet (option_list (advance w (onAuthStateChange_callback s)).2).
Proof.
  unfold_async. destruct s as [s |]; cbn; [| done].
  destruct (truthy _); cbn; [| done].
  apply Forall_singleton. intros r. solve_quiet.
Qed.

Lemma fetched_parks_quiet (response : Response (option Session)) (w : World) :
  Forall parked_quiet (option_list (advance w (getSession_then response)).2).
Proof.
  unfold_async. destruct (data response) as [s |]; cbn; [| done].
  destruct (truthy _); cbn; [| done].
  apply Forall_singleton. intros r. solve_quiet.
Qed.

Lemma action_parks_quiet (window : Window) (a : Action) (w : World) :
  calls_signOut (Invoke a) = false ->
  Forall parked_quiet (option_list (advance w (action window a)).2).
Proof.
  destruct a; cbn; try done; intros _;
    apply Forall_singleton; intros r; solve_quiet.
Qed.

Lemma step_parked_quiet (window : Window) (sys : System) (ev : Event) :
  calls_signOut ev = false ->
  Forall parked_quiet (parked sys) ->
  Forall parked_quiet (parked (step window sys ev)).
Proof.
  intros Hev Hsys. destruct ev as [| | s | r | a | i m]; cbn [step].
  - unfold mount. destruct (cleanup sys); done.
  - unfold unmount. destruct (cleanup sys); done.
  - induction (listeners sys) as [| l ls IH]; cbn [foldr]; [done |].
    rewrite start_parked. apply Forall_app. split; [done |].
    apply callback_parks_quiet.
  - destruct (fetching sys) as [| n]; [done |].
    destruct r as [response | e]; [| done].
    rewrite start_parked. apply Forall_app. split; [done |].
    apply fetched_parks_quiet.
  - rewrite start_parked. apply Forall_app. split; [done |].
    by apply action_parks_quiet.
  - destruct (parked sys !! i) as [pk |] eqn:Hpk; [| done].
    destruct (perform (parked_call pk) m (profiles (world sys))) as [rows r].
    rewrite start_parked. apply Forall_app. split.
    + cbn. by apply Forall_delete.
    + pose proof (Forall_lookup_1 _ _ _ _ Hsys Hpk) as Hk.
      apply (advance_keeps_state _ _ (Hk r)).
Qed.

Lemma steps_parked_quiet (window : Window) (sys : System) (evs : list Event) :
  existsb calls_signOut evs = false ->
  Forall parked_quiet (parked sys) ->
  Forall parked_quiet (parked (steps window sys evs)).
Proof.
  revert sys. induction evs as [| ev evs IH]; intros sys Hevs Hsys; [done |].
  cbn in Hevs. apply orb_false_iff in Hevs as [Hev Hevs].
  cbn. apply IH; [done |]. by apply step_parked_quiet.
Qed.

(** X16: the profile sync is fire-and-forget for the React state.  As
    long as [signOut] has not been called, no answer of the backend to a
    parked function, in whatever mode and at whatever moment, changes
    [user], [session] or [loading]. *)
Theorem settle_keeps_state (window : Window) (rows : list Row)
    (evs : list Event) (i : nat) (m : Mode) :
  existsb calls_signOut evs = false ->
  let sys := steps window (initial rows) evs in
  let sys' := step window sys (Settle i m) in
  user (world sys') = user (world sys) /\
  session (world sys') = session (world sys) /\
  loading (world sys') = loading (world sys).
Proof.
  intros Hevs sys sys'.
  assert (Forall parked_quiet (parked sys)) as Hsys
    by (apply steps_parked_quiet; [done | apply Forall_nil_2]).
  subst sys'. cbn [step].
  destruct (parked sys !! i) as [pk |] eqn:Hpk; [| done].
  destruct (perform (parked_call pk) m (profiles (world sys))) as [rows' r].
  pose proof (Forall_lookup_1 _ _ _ _ Hsys Hpk) as Hk.
  rewrite start_world.
  destruct (advance_keeps_state (parked_k pk r)
              (world (with_parked (delete i (parked sys))
                        (with_world (set_profiles rows' (world sys)) sys)))
              (Hk r)) as (-> & -> & -> & _).
  done.
Qed.

Lemma settle_keeps_state_witness :
  let window := mkWindow "https://app" in
  let evs := [Mount; AuthStateChange (Some alice_session);
              Invoke (call_signIn "alice@example.com" "secret")] in
  let sys := steps window (initial [row_unlinked]) evs in
  existsb calls_signOut evs = false /\
  user (world (step window sys (Settle 0 (Reject (mkError "offline")))))
  = Some alice.
Proof.
  intros window evs sys. split; [reflexivity |].
  destruct (settle_keeps_state window [row_unlinked] evs 0
              (Reject (mkError "offline")) eq_refl) as (Hu & _ & _).
  fold sys in Hu. rewrite Hu. reflexivity.
Defined.

(** ** The event loop: sign-out and the sync under interleaving *)

Lemma notify_each_parked (s : option Session) (sys : System) (ls : list nat) :
  exists more,
    parked (foldr (fun _ acc => start (onAuthStateChange_callback s) acc) sys ls)
    = parked sys ++ more.
Proof.
  induction ls as [| l ls [more IH]]; cbn [foldr].
  - exists []. by rewrite app_nil_r.
  - rewrite start_parked, IH. eexists. by rewrite <- app_assoc.
Qed.

Lemma notifications_parked (window : Window) (ss : list (option Session))
    (sys : System) :
  exists more,
    parked (steps window sys (AuthStateChange <$> ss)) = parked sys ++ more.
Proof.
  revert sys. induction ss as [| s ss IH]; intros sys.
  - exists []. by rewrite app_nil_r.
  - change (steps window sys (AuthStateChange <$> s :: ss))
      with (steps window (step window sys (AuthStateChange s)) (AuthStateChange <$> ss)).
    destruct (IH (step window sys (AuthStateChange s))) as [more ->].
    destruct (notify_each_parked s sys (listeners sys)) as [more' Hmore].
    cbn [step]. rewrite Hmore. eexists. by rewrite <- app_assoc.
Qed.

Lemma signOut_parks (sys : System) :
  exists pk,
    parked (start signOut sys) = parked sys ++ [pk] /\
    forall window sys' i m,
      parked sys' !! i = Some pk ->
      rejects [m] = false ->
      user (world (step window sys' (Settle i m))) = None /\
      session (world (step window sys' (Settle i m))) = None.
Proof.
  rewrite start_parked. cbn. eexists. split; [reflexivity |].
  intros window sys' i m Hpk Hm. cbn [step]. rewrite Hpk. cbn.
  destruct m as [| e | e]; [| | discriminate]; cbn; done.
Qed.

(** X17: a sign-out that is under way wins over the notifications that
    arrive before its promise is fulfilled: whatever sessions they
    delivered, once the backend answers the sign-out without rejecting,
    [user] and [session] are null. *)
Theorem signOut_overrides_notifications (window : Window) (sys : System)
    (ss : list (option Session)) (m : Mode) :
  rejects [m] = false ->
  let sys' :=
    steps window sys
      (Invoke call_signOut :: (AuthStateChange <$> ss)
         ++ [Settle (length (parked sys)) m]) in
  user (world sys') = None /\ session (world sys') = None.
Proof.
  intros Hm sys'. subst sys'.
  rewrite app_comm_cons, steps_snoc.
  change (steps window sys (Invoke call_signOut :: (AuthStateChange <$> ss)))
    with (steps window (start signOut sys) (AuthStateChange <$> ss)).
  destruct (signOut_parks sys) as (pk & Hparked & Hsettle).
  destruct (notifications_parked window ss (start signOut sys)) as [more Hmore].
  apply Hsettle; [| done].
  rewrite Hmore, Hparked, <- app_assoc. by apply list_lookup_middle.
Qed.

Lemma signOut_overrides_notifications_witness :
  let window := mkWindow "https://app" in
  let sys := steps window (initial []) [Mount] in
  let sys' :=
    steps window sys
      [Invoke call_signOut; AuthStateChange (Some alice_session);
       Settle 0 (Fail (mkError "network"))] in
  user (world sys') = None /\ session (world sys') = None.
Proof.
  intros window sys.
  exact (signOut_overrides_notifications window sys [Some alice_session]
           (Fail (mkError "network")) eq_refl).
Defined.

Lemma advance_profiles (p : Async unit) (w : World) :
  profiles (advance w p).1 = profiles w.
Proof.
  revert w. induction p as [a | e | s k IH | u k IH | b k IH | args k IH | c k IH];
    intros w; cbn; try done; by rewrite IH.
Qed.

Lemma sync_parked (s : Session) :
  truthy (provider_id_of s) = true ->
  exists sel upd : Parked,
    (forall w, (advance w (onAuthStateChange_callback (Some s))).2 = Some sel) /\
    (forall window sys i row,
       parked sys !! i = Some sel ->
       rows_of (id (session_user s)) (profiles (world sys)) = [row] ->
       truthy (get_prop row "discord_id") = false ->
       let sys' := step window sys (Settle i Succeed) in
       profiles (world sys') = profiles (world sys) /\
       parked sys' = delete i (parked sys) ++ [upd]) /\
    (forall window sys i,
       parked sys !! i = Some upd ->
       let sys' := step window sys (Settle i Succeed) in
       profiles (world sys')
       = update_rows {[ "discord_id" := provider_id_of s ]} "user_id"
                     (id (session_user s)) (profiles (world sys)) /\
       parked sys' = delete i (parked sys)).
Proof.
  intros Hpid. unfold_async. fold (provider_id_of s). rewrite Hpid. cbn.
  eexists. eexists. split; [intros w; reflexivity |]. split.
  - intros window sys i row Hpk Hrows Hd. cbn [step]. rewrite Hpk. cbn.
    fold (rows_of (id (session_user s)) (profiles (world sys))).
    rewrite Hrows. cbn. rewrite get_prop_select_column, Hd. cbn.
    split; reflexivity.
  - intros window sys i Hpk. cbn [step]. rewrite Hpk. cbn.
    split; [reflexivity | by rewrite app_nil_r].
Qed.

Lemma notified_parks (window : Window) (sys : System) (l : nat) (s : Session)
    (sel : Parked) :
  listeners sys = [l] ->
  (forall w, (advance w (onAuthStateChange_callback (Some s))).2 = Some sel) ->
  let sys' := step window sys (AuthStateChange (Some s)) in
  listeners sys' = [l] /\
  profiles (world sys') = profiles (world sys) /\
  parked sys' = parked sys ++ [sel].
Proof.
  intros Hl Hsel. cbn [step]. rewrite Hl. cbn [foldr].
  destruct (start_control (onAuthStateChange_callback (Some s)) sys) as (-> & _).
  rewrite start_world, start_parked, advance_profiles, Hsel. done.
Qed.

(** X18: the lookup and the update of the sync are two separate
    requests, and nothing guards the update.  When two notifications for
    the same user are both looked up before either update is applied,
    both updates are applied in turn: the row first holds the provider id
    of the first session and ends with that of the second. *)
Theorem sync_race_overwrites (window : Window) (sys : System) (l : nat)
    (s1 s2 : Session) (row : Row) :
  listeners sys = [l] ->
  parked sys = [] ->
  id (session_user s2) = id (session_user s1) ->
  rows_of (id (session_user s1)) (profiles (world sys)) = [row] ->
  truthy (get_prop row "discord_id") = false ->
  truthy (provider_id_of s1) = true ->
  truthy (provider_id_of s2) = true ->
  let uid := id (session_user s1) in
  let mid :=
    steps window sys
      [AuthStateChange (Some s1); AuthStateChange (Some s2);
       Settle 0 Succeed; Settle 0 Succeed; Settle 0 Succeed] in
  let final := step window mid (Settle 0 Succeed) in
  rows_of uid (profiles (world mid)) = [<[ "discord_id" := provider_id_of s1 ]> row] /\
  rows_of uid (profiles (world final)) = [<[ "discord_id" := provider_id_of s2 ]> row].
Proof.
  intros Hl Hp Hid Hrows Hd Hp1 Hp2 uid mid final.
  destruct (sync_parked s1 Hp1) as (sel1 & upd1 & Hadv1 & Hsel1 & Hupd1).
  destruct (sync_parked s2 Hp2) as (sel2 & upd2 & Hadv2 & Hsel2 & Hupd2).
  rewrite Hid in Hsel2, Hupd2.
  subst final mid. unfold steps. cbn [foldl].
  destruct (notified_parks window sys l s1 sel1 Hl Hadv1) as (Hl1 & Hr1 & Hk1).
  set (sys1 := step window sys (AuthStateChange (Some s1))) in *.
  destruct (notified_parks window sys1 l s2 sel2 Hl1 Hadv2) as (Hl2 & Hr2 & Hk2).
  set (sys2 := step window sys1 (AuthStateChange (Some s2))) in *.
  rewrite Hk1, Hp in Hk2. cbn [app delete list_delete] in Hk2.
  destruct (Hsel1 window sys2 0 row) as [Hr3 Hk3];
    [by rewrite Hk2 | by rewrite Hr2, Hr1 | done |].
  set (sys3 := step window sys2 (Settle 0 Succeed)) in *.
  rewrite Hk2 in Hk3. cbn [app delete list_delete] in Hk3.
  destruct (Hsel2 window sys3 0 row) as [Hr4 Hk4];
    [by rewrite Hk3 | by rewrite Hr3, Hr2, Hr1 | done |].
  set (sys4 := step window sys3 (Settle 0 Succeed)) in *.
  rewrite Hk3 in Hk4. cbn [app delete list_delete] in Hk4.
  destruct (Hupd1 window sys4 0) as [Hr5 Hk5]; [by rewrite Hk4 |].
  set (sys5 := step window sys4 (Settle 0 Succeed)) in *.
  rewrite Hk4 in Hk5. cbn [app delete list_delete] in Hk5.
  destruct (Hupd2 window sys5 0) as [Hr6 Hk6]; [by rewrite Hk5 |].
  rewrite Hr6, Hr5, Hr4, Hr3, Hr2, Hr1.
  unfold uid. rewrite !rows_of_update, Hrows. cbn.
  by rewrite insert_insert_eq.
Qed.

Lemma sync_race_overwrites_witness :
  let window := mkWindow "https://app" in
  let sys := steps window (initial [row_unlinked; row_bob]) [Mount] in
  let mid :=
    steps window sys
      [AuthStateChange (Some alice_session); AuthStateChange (Some erin_session);
       Settle 0 Succeed; Settle 0 Succeed; Settle 0 Succeed] in
  let final := step window mid (Settle 0 Succeed) in
  rows_of "u-1" (profiles (world mid)) = [<[ "discord_id" := JStr "Y" ]> row_unlinked] /\
  rows_of "u-1" (profiles (world final)) = [<[ "discord_id" := JStr "Z" ]> row_unlinked].
Proof.
  intros window sys.
  exact (sync_race_overwrites window sys 0 alice_session erin_session row_unlinked
           eq_refl eq_refl eq_refl eq_refl eq_refl eq_refl eq_refl).
Defined.

(** ** The event loop: what the component never writes *)

Ltac solve_tame :=
  unfold_async;
  repeat first
    [ done
    | progress (cbn; intros)
    | split
    | by apply lookup_singleton_ne
    | match goal with
      | |- context [truthy ?v] => destruct (truthy v)
      | |- context [match ?r with Fulfilled _ => _ | Rejected _ => _ end] =>
          destruct r
      | |- context [match data ?r with Some _ => _ | None => _ end] =>
          destruct (data r)
      end ].

Lemma callback_tame (s : option Session) : tame (onAuthStateChange_callback s).
Proof. destruct s as [s |]; solve_tame. Qed.

Lemma fetched_tame (response : Response (option Session)) :
  tame (getSession_then response).
Proof. destruct response as [[s |] e]; solve_tame. Qed.

Lemma action_tame (window : Window) (a : Action) : tame (action window a).
Proof. destruct a; solve_tame. Qed.

Lemma advance_tame (p : Async unit) (w : World) :
  tame p -> Forall parked_tame (option_list (advance w p).2).
Proof.
  revert w. induction p as [a | e | s k IH | u k IH | b k IH | args k IH | c k IH];
    intros w Hp; cbn in *; try done; try (by apply IH).
  by apply Forall_singleton.
Qed.

Lemma same_but_discord_id_refl (rows : list Row) : same_but_discord_id rows rows.
Proof. induction rows; constructor; done. Qed.

Lemma same_but_discord_id_trans (rows1 rows2 rows3 : list Row) :
  same_but_discord_id rows1 rows2 -> same_but_discord_id rows2 rows3 ->
  same_but_discord_id rows1 rows3.
Proof.
  intros H12. revert rows3.
  induction H12 as [| r1 r2 l1 l2 Hr _ IH]; intros rows3 H23.
  - inversion H23. constructor.
  - inversion H23 as [| r2' r3 l2' l3 Hr' Hl']; subst.
    constructor; [| by apply IH].
    intros column Hc. rewrite Hr' by done. by apply Hr.
Qed.

Lemma perform_tame (c : Call) (m : Mode) (rows : list Row) :
  writes_discord_id_only c ->
  same_but_discord_id rows (perform c m rows).1.
Proof.
  intros Hc. destruct m; cbn; try apply same_but_discord_id_refl.
  destruct c; cbn; try apply same_but_discord_id_refl.
  unfold update_rows. induction rows as [| row rows IH]; cbn; constructor; [| done].
  intros col Hcol. destruct (eq_filter column value row); [| done].
  apply lookup_union_r. by apply Hc.
Qed.

Lemma step_tame (window : Window) (sys : System) (ev : Event) :
  Forall parked_tame (parked sys) ->
  Forall parked_tame (parked (step window sys ev)) /\
  same_but_discord_id (profiles (world sys)) (profiles (world (step window sys ev))).
Proof.
  intros Hsys. destruct ev as [| | s | r | a | i m]; cbn [step].
  - unfold mount. destruct (cleanup sys); split; try done;
      apply same_but_discord_id_refl.
  - unfold unmount. destruct (cleanup sys); split; try done;
      apply same_but_discord_id_refl.
  - induction (listeners sys) as [| l ls [IH1 IH2]]; cbn [foldr].
    { split; [done | apply same_but_discord_id_refl]. }
    rewrite start_parked, start_world, advance_profiles. split; [| done].
    apply Forall_app. split; [done |]. apply advance_tame, callback_tame.
  - destruct (fetching sys) as [| n]; [split; [done | apply same_but_discord_id_refl] |].
    destruct r as [response | e]; [| split; [done | apply same_but_discord_id_refl]].
    rewrite start_parked, start_world, advance_profiles.
    split; [| apply same_but_discord_id_refl].
    apply Forall_app. split; [done |]. apply advance_tame, fetched_tame.
  - rewrite start_parked, start_world, advance_profiles.
    split; [| apply same_but_discord_id_refl].
    apply Forall_app. split; [done |]. apply advance_tame, action_tame.
  - destruct (parked sys !! i) as [pk |] eqn:Hpk;
      [| split; [done | apply same_but_discord_id_refl]].
    destruct (Forall_lookup_1 _ _ _ _ Hsys Hpk) as [Hcall Hk].
    pose proof (perform_tame (parked_call pk) m (profiles (world sys)) Hcall) as Hperf.
    destruct (perform (parked_call pk) m (profiles (world sys))) as [rows r].
    rewrite start_parked, start_world, advance_profiles. split; [| done].
    apply Forall_app. split; [by apply Forall_delete |]. apply advance_tame, Hk.
Qed.

(** X19: along every history of events, whatever the sessions delivered
    and however the backend answers, the profile table keeps its rows,
    none added and none removed, and every column of every row other
    than [discord_id] holds what it held at the start. *)
Theorem table_changes_only_discord_id (window : Window) (rows : list Row)
    (evs : list Event) :
  let rows' := profiles (world (steps window (initial rows) evs)) in
  length rows' = length rows /\
  same_but_discord_id rows rows'.
Proof.
  intros rows'.
  assert (forall sys,
            Forall parked_tame (parked sys) ->
            same_but_discord_id (profiles (world sys))
              (profiles (world (steps window sys evs)))) as Hall.
  { induction evs as [| ev evs IH]; intros sys Hsys;
      [apply same_but_discord_id_refl |].
    destruct (step_tame window sys ev Hsys) as [Hk Hp].
    eapply same_but_discord_id_trans; [exact Hp | by apply IH]. }
  specialize (Hall (initial rows) (Forall_nil_2 _)).
  split; [| exact Hall].
  symmetry. by eapply Forall2_length.
Qed.
